(** * clear-cache.py: stripping the [rendered] cache from session files

    A shallow embedding of [scripts/clear-cache.py] and the properties its
    specification states about it.

    The script is one loop:
<<
    sessions_dir = Path("~/temp/otui/sessions")
    for session_file in sessions_dir.glob("*.json"):
        with open(session_file, 'r') as f:
            data = json.load(f)
        if 'messages' in data:
            for msg in data['messages']:
                if 'rendered' in msg:
                    del msg['rendered']
            with open(session_file, 'w') as f:
                json.dump(data, f, indent=2)
    print("... Cache cleared")
>>
    The development has three layers: the Python objects [json.load] returns
    and the operators the script applies to them ([in], [o[k]], [del o[k]],
    iteration); the directory with a log of the reads, writes and prints of a
    run; and the script itself. [json.load] and [json.dump] belong to Python's
    library, not to the repository: they are parameters of the script's
    section.

    The directory of the model is the one [sessions_dir] names, whichever it
    is (the script does not expand the [~] of the path), and a file is known
    by its name in it. The script runs alone: nothing else touches the
    directory during a run. *)

From Stdlib Require Import String Ascii List ZArith Bool Arith Lia.
From Stdlib Require Import DecimalString Floats.SpecFloat.
Import ListNotations.
Local Open Scope string_scope.
Local Open Scope list_scope.

(** ** Exceptions and the error monad *)

(** The exceptions the script can die of. None is caught: each aborts the run. *)
Inductive exn : Type :=
| TypeError
| KeyError
| JSONDecodeError
| IsADirectoryError
| FileNotFoundError.

Definition result (A : Type) : Type := (exn + A)%type.

Definition ok {A : Type} (a : A) : result A := inr a.
Definition raise {A : Type} (e : exn) : result A := inl e.

Definition bind {A B : Type} (c : result A) (k : A -> result B) : result B :=
  match c with
  | inl e => inl e
  | inr a => k a
  end.

Notation "x <- c ;; k" := (bind c (fun x => k))
  (at level 61, c at next level, right associativity).

Fixpoint mapM {A B : Type} (f : A -> result B) (l : list A) : result (list B) :=
  match l with
  | [] => ok []
  | a :: l' =>
      b <- f a ;;
      bs <- mapM f l' ;;
      ok (b :: bs)
  end.

(** ** Python objects *)

Set Warnings "-register-all".

(** What [json.load] returns: [None], [bool], [int], [float], [str], [list]
    and [dict] with [str] keys. A [dict] keeps its keys in insertion order
    (which is the order [json.dump] writes them in), so it is an association
    list, first binding first; Python's dicts hold a key once ([unique_keys]). *)
Inductive value : Type :=
| VNone
| VBool (b : bool)
| VInt (n : Z)
| VFloat (x : spec_float)
| VStr (s : string)
| VList (items : list value)
| VDict (fields : list (string * value)).

Definition dict : Type := list (string * value).

Definition keys (d : dict) : list string := map fst d.

Fixpoint dict_get (k : string) (d : dict) : option value :=
  match d with
  | [] => None
  | (k', v) :: d' => if k' =? k then Some v else dict_get k d'
  end.

(** [k in d] *)
Definition dict_mem (k : string) (d : dict) : bool :=
  match dict_get k d with
  | Some _ => true
  | None => false
  end.

(** [del d[k]]: the binding of [k] goes, the others keep their order. *)
Definition dict_del (k : string) (d : dict) : dict :=
  filter (fun kv => negb (fst kv =? k)) d.

(** [d[k] = v]: a key that is present keeps its place, a new key goes last. *)
Fixpoint dict_set (k : string) (v : value) (d : dict) : dict :=
  match d with
  | [] => [(k, v)]
  | (k', v') :: d' =>
      if k' =? k then (k', v) :: d' else (k', v') :: dict_set k v d'
  end.

(** [needle in hay] on two [str]: substring search. *)
Fixpoint str_contains (needle hay : string) : bool :=
  prefix needle hay
  || match hay with
     | EmptyString => false
     | String _ hay' => str_contains needle hay'
     end.

(** [o == k] for a [str] [k]: only an equal [str] compares equal. *)
Definition eq_str (k : string) (o : value) : bool :=
  match o with
  | VStr s => s =? k
  | _ => false
  end.

(** [k in o] for a [str] [k]: key membership on a [dict], element membership
    on a [list], substring search on a [str]; the other objects are not
    containers. *)
Definition py_in (k : string) (o : value) : result bool :=
  match o with
  | VDict d => ok (dict_mem k d)
  | VList l => ok (existsb (eq_str k) l)
  | VStr s => ok (str_contains k s)
  | _ => raise TypeError
  end.

(** [o[k]] for a [str] [k]: only a [dict] takes a [str] subscript. *)
Definition py_getitem (k : string) (o : value) : result value :=
  match o with
  | VDict d =>
      match dict_get k d with
      | Some v => ok v
      | None => raise KeyError
      end
  | _ => raise TypeError
  end.

(** [del o[k]] for a [str] [k]. *)
Definition py_delitem (k : string) (o : value) : result value :=
  match o with
  | VDict d => if dict_mem k d then ok (VDict (dict_del k d)) else raise KeyError
  | _ => raise TypeError
  end.

(** The objects [for x in o] visits: the elements of a [list], the keys of a
    [dict], the characters of a [str], each as a [str] of length one. *)
Definition py_iter (o : value) : result (list value) :=
  match o with
  | VList l => ok l
  | VDict d => ok (map VStr (keys d))
  | VStr s => ok (map (fun c => VStr (String c EmptyString)) (list_ascii_of_string s))
  | _ => raise TypeError
  end.

(** ** The two loops of the script, on objects *)

(** The body of the inner loop:
<<
    if 'rendered' in msg:
        del msg['rendered']
>>
    It returns [msg] as the body leaves it. *)
Definition strip_msg (msg : value) : result value :=
  has <- py_in "rendered" msg ;;
  if (has : bool) then py_delitem "rendered" msg else ok msg.

(** [for msg in messages: ...]. The elements of a [list] are the objects the
    body mutates, so the list holds the stripped entries afterwards, each at
    its place. The keys of a [dict] and the characters of a [str] are [str]
    objects, which the body either leaves alone or dies on: the container is
    as it was. *)
Definition strip_messages (messages : value) : result value :=
  items <- py_iter messages ;;
  items' <- mapM strip_msg items ;;
  match messages with
  | VList _ => ok (VList items')
  | _ => ok messages
  end.

(** The object [data] after an in-place change of [data[k]]. *)
Definition with_item (k : string) (v : value) (data : value) : value :=
  match data with
  | VDict d => VDict (dict_set k v d)
  | _ => data
  end.

(** The guarded block, up to the write: [data] after
<<
    for msg in data['messages']:
        if 'rendered' in msg:
            del msg['rendered']
>>
*)
Definition strip_rendered (data : value) : result value :=
  messages <- py_getitem "messages" data ;;
  messages' <- strip_messages messages ;;
  ok (with_item "messages" messages' data).

(** ** The data model of the specification *)

(** A message entry is a mapping of field names to values. *)
Definition message_entry (o : value) : bool :=
  match o with
  | VDict _ => true
  | _ => false
  end.

(** A session record is a mapping whose [messages] field, when it has one,
    is a list of message entries. *)
Definition session_record (data : value) : bool :=
  match data with
  | VDict d =>
      match dict_get "messages" d with
      | None => true
      | Some (VList msgs) => forallb message_entry msgs
      | Some _ => false
      end
  | _ => false
  end.

(** [m'] is [m] without its [rendered] field: the field is gone, every other
    field has the value it had, and the fields are in the order they were. *)
Definition rendered_removed (m m' : dict) : Prop :=
  dict_mem "rendered" m' = false
  /\ (forall k, k <> "rendered" -> dict_get k m' = dict_get k m)
  /\ keys m' = filter (fun k => negb (k =? "rendered")) (keys m).

(** A message entry as the inner loop leaves it. *)
Definition without_rendered (msg : value) : value :=
  match msg with
  | VDict m => VDict (dict_del "rendered" m)
  | _ => msg
  end.

Fixpoint nodupb (l : list string) : bool :=
  match l with
  | [] => true
  | x :: l' => negb (existsb (String.eqb x) l') && nodupb l'
  end.

(** The objects of Python: no dict holds a key twice, at any depth. *)
Fixpoint unique_keys (v : value) : bool :=
  match v with
  | VList items => forallb unique_keys items
  | VDict fields =>
      nodupb (map fst fields) && forallb (fun kv => unique_keys (snd kv)) fields
  | _ => true
  end.

(** ** The sessions directory and what a run does to it *)

(** A directory entry: a file with its text, or a subdirectory. *)
Inductive entry : Type :=
| File (text : string)
| Dir.

(** The directory, in the order the operating system lists it. *)
Definition directory : Type := list (string * entry).

Definition names (d : directory) : list string := map fst d.

Fixpoint lookup (name : string) (d : directory) : option entry :=
  match d with
  | [] => None
  | (n, e) :: d' => if n =? name then Some e else lookup name d'
  end.

(** The directory after [open(name, 'w')] and a write of [text]: a file that
    exists is overwritten where it stands, one that does not is created. *)
Fixpoint put_file (name text : string) (d : directory) : directory :=
  match d with
  | [] => [(name, File text)]
  | (n, e) :: d' =>
      if n =? name then (n, File text) :: d' else (n, e) :: put_file name text d'
  end.

(** What a run does that can be seen from outside, in the order it happens. *)
Inductive event : Type :=
| Read (name : string)
| Wrote (name text : string)
| Printed (line : string).

Record world : Type := World { files : directory; log : list event }.

(** In the log [l], every write is to a name that was read before it. *)
Definition writes_follow_reads (l : list event) : Prop :=
  forall pre name text post,
    l = pre ++ Wrote name text :: post -> In (Read name) pre.

(** What the body keeps true of the world, for a run that started on [d0]:
    the names of the directory, writes after reads, and reads of names of
    the directory only. *)
Definition careful (d0 : directory) (w : world) : Prop :=
  names (files w) = names d0
  /\ writes_follow_reads (log w)
  /\ (forall name, In (Read name) (log w) -> In name (names d0)).

(** Commands: they change the world, and return or raise. An exception keeps
    the world as it was when it was raised. *)
Definition IO (A : Type) : Type := world -> result A * world.

Definition io_ret {A : Type} (a : A) : IO A := fun w => (ok a, w).

Definition io_bind {A B : Type} (c : IO A) (k : A -> IO B) : IO B :=
  fun w =>
    match c w with
    | (inl e, w') => (inl e, w')
    | (inr a, w') => k a w'
    end.

Notation "x <~ c ;; k" := (io_bind c (fun x => k))
  (at level 61, c at next level, right associativity).

(** A computation on objects, run as a command. *)
Definition lift {A : Type} (c : result A) : IO A := fun w => (c, w).

Definition emit (e : event) : IO unit :=
  fun w => (ok tt, World (files w) (log w ++ [e])).

(** [with open(name, 'r') as f: ... f.read()] *)
Definition open_read (name : string) : IO string :=
  fun w =>
    match lookup name (files w) with
    | None => (raise FileNotFoundError, w)
    | Some Dir => (raise IsADirectoryError, w)
    | Some (File text) => (ok text, World (files w) (log w ++ [Read name]))
    end.

(** [with open(name, 'w') as f: f.write(text)] *)
Definition open_write (name text : string) : IO unit :=
  fun w =>
    match lookup name (files w) with
    | Some Dir => (raise IsADirectoryError, w)
    | _ => (ok tt, World (put_file name text (files w)) (log w ++ [Wrote name text]))
    end.

(** [print(line)] *)
Definition print (line : string) : IO unit := emit (Printed line).

(** [fnmatch] on a name, for patterns made of [*], [?] and plain characters
    (the pattern of the script has no character class). *)
Fixpoint fnmatch (pat : string) : string -> bool :=
  match pat with
  | EmptyString =>
      fun s => match s with EmptyString => true | String _ _ => false end
  | String "*" pat' =>
      fix star (s : string) : bool :=
        fnmatch pat' s
        || match s with
           | EmptyString => false
           | String _ s' => star s'
           end
  | String "?" pat' =>
      fun s => match s with EmptyString => false | String _ s' => fnmatch pat' s' end
  | String c pat' =>
      fun s =>
        match s with
        | EmptyString => false
        | String c' s' => (c' =? c)%char && fnmatch pat' s'
        end
  end.

(** [sessions_dir.glob(pat)]: the entries of the directory whose name matches,
    files and subdirectories alike, in directory order. [pathlib] lists the
    directory once, before the loop body first runs. *)
Definition glob (pat : string) : IO (list string) :=
  fun w => (ok (filter (fnmatch pat) (names (files w))), w).

(** [for x in l: body(x)] *)
Fixpoint for_each {A : Type} (l : list A) (body : A -> IO unit) : IO unit :=
  match l with
  | [] => io_ret tt
  | a :: l' => _ <~ body a ;; for_each l' body
  end.

(** ** The script *)

(** The line the script prints: a check mark (U+2705, three bytes in UTF-8)
    and [Cache cleared]. *)
Definition cleared : string :=
  String "226" (String "156" (String "133" " Cache cleared")).

Section Script.

(** [json.load] on the text of a file ([None]: it raises), and
    [json.dump(_, _, indent=n)] as the text it writes. *)
Variable json_loads : string -> option value.
Variable json_dumps : nat -> value -> string.

Definition json_load (text : string) : IO value :=
  lift match json_loads text with
       | Some data => ok data
       | None => raise JSONDecodeError
       end.

(** The body of the outer loop. *)
Definition process_session_file (session_file : string) : IO unit :=
  text <~ open_read session_file ;;
  data <~ json_load text ;;
  has <~ lift (py_in "messages" data) ;;
  if (has : bool) then
    data' <~ lift (strip_rendered data) ;;
    open_write session_file (json_dumps 2 data')
  else io_ret tt.

Definition clear_cache : IO unit :=
  session_files <~ glob "*.json" ;;
  _ <~ for_each session_files process_session_file ;;
  print cleared.

(** A run of the script on a directory: how it ends, and the world it
    leaves. *)
Definition run (d : directory) : result unit * world :=
  clear_cache (World d []).

(** What the loop body does to a file that holds [text]: it raises, leaves
    the file alone ([None]) or writes a new text. *)
Definition rewrite_of (text : string) : result (option string) :=
  match json_loads text with
  | None => raise JSONDecodeError
  | Some data =>
      has <- py_in "messages" data ;;
      if (has : bool) then
        data' <- strip_rendered data ;;
        ok (Some (json_dumps 2 data'))
      else ok None
  end.

(** The directories of the specification: the names are distinct, and
    every entry the pattern selects is a file that holds a session record. *)
Definition holds_session_record (e : entry) : bool :=
  match e with
  | File text =>
      match json_loads text with
      | Some data => session_record data
      | None => false
      end
  | Dir => false
  end.

Definition sessions_directory (d : directory) : bool :=
  nodupb (names d)
  && forallb (fun ne => implb (fnmatch "*.json" (fst ne)) (holds_session_record (snd ne))) d.

(** [json.load] reads back what [json.dump] wrote, for the records the loop
    body writes to the files of [d]. *)
Definition reads_back (d : directory) : Prop :=
  forall name text data data',
    lookup name d = Some (File text) ->
    json_loads text = Some data ->
    py_in "messages" data = ok true ->
    strip_rendered data = ok data' ->
    json_loads (json_dumps 2 data') = Some data'.

(** The object [data] when the loop body reaches its end. *)
Definition record_after (data : value) : value :=
  match py_in "messages" data, strip_rendered data with
  | inr true, inr data' => data'
  | _, _ => data
  end.

(** The loop body on the files alone. *)
Definition step_files (name : string) (d : directory) : result directory :=
  match lookup name d with
  | None => raise FileNotFoundError
  | Some Dir => raise IsADirectoryError
  | Some (File text) =>
      match rewrite_of text with
      | inl e => inl e
      | inr None => ok d
      | inr (Some text') => ok (put_file name text' d)
      end
  end.

Fixpoint loop_files (l : list string) (d : directory) : result unit * directory :=
  match l with
  | [] => (ok tt, d)
  | name :: l' =>
      match step_files name d with
      | inl e => (inl e, d)
      | inr d' => loop_files l' d'
      end
  end.

(** What the loop body logs for [name], and the entry it leaves, when it
    does not raise. *)
Definition file_events (d : directory) (name : string) : list event :=
  match lookup name d with
  | Some (File text) =>
      match rewrite_of text with
      | inr (Some text') => [Read name; Wrote name text']
      | _ => [Read name]
      end
  | _ => []
  end.

Definition file_after (e : option entry) : option entry :=
  match e with
  | Some (File text) =>
      match rewrite_of text with
      | inr (Some text') => Some (File text')
      | _ => e
      end
  | _ => e
  end.

(** The claim that the loop body persists the record of [name]: the run
    writes [data], as the body leaves it, to [name] with an indent of two,
    and the file holds that text afterwards. *)
Definition persisted (d : directory) (name : string) (data : value) : Prop :=
  In (Wrote name (json_dumps 2 (record_after data))) (log (snd (run d)))
  /\ lookup name (files (snd (run d)))
     = Some (File (json_dumps 2 (record_after data))).

(** A file the loop body leaves as it is: it rewrites nothing, or rewrites
    the text the file already holds. *)
Definition stable (name : string) (d : directory) : Prop :=
  exists text,
    lookup name d = Some (File text)
    /\ (rewrite_of text = ok None \/ rewrite_of text = ok (Some text)).

(** The entry of [name] is the one of [d0], or the text the loop body
    writes for the one of [d0]. *)
Definition fate (d0 : directory) (name : string) (f : directory) : Prop :=
  lookup name f = lookup name d0
  \/ exists text text',
       lookup name d0 = Some (File text)
       /\ rewrite_of text = ok (Some text')
       /\ lookup name f = Some (File text').

End Script.

(** ** A JSON reader and writer for the examples

    The theorems below hold for every [json_loads] and [json_dumps]. To run
    the script on concrete directories the examples need one pair: this
    module reads and writes the JSON of objects, arrays, strings, integers,
    [true], [false] and [null] the way Python's [json] does (objects in
    insertion order, a repeated key keeping its first place and its last
    value; an item per line, [indent] spaces per level, a comma after an item
    and a colon and a space after a key). Outside that fragment it is
    only an approximation: bytes above 127 are copied, not escaped; a float is
    written by its exact decimal expansion, where Python writes the shortest
    decimal that reads back the same; and the reader rejects floats. *)
Module RefJson.

Local Open Scope string_scope.

Definition dquote : ascii := "034".
Definition bslash : ascii := "092".
Definition lf : ascii := "010".
Definition cr : ascii := "013".
Definition tab : ascii := "009".
Definition bsp : ascii := "008".
Definition ff : ascii := "012".

(** *** Writing *)

Definition hex_digit (n : nat) : ascii :=
  nth n (list_ascii_of_string "0123456789abcdef") "0"%char.

Definition escape_char (c : ascii) : string :=
  if (c =? dquote)%char then String bslash (String dquote "")
  else if (c =? bslash)%char then String bslash (String bslash "")
  else if (c =? lf)%char then String bslash "n"
  else if (c =? cr)%char then String bslash "r"
  else if (c =? tab)%char then String bslash "t"
  else if (c =? bsp)%char then String bslash "b"
  else if (c =? ff)%char then String bslash "f"
  else if (nat_of_ascii c <? 32)%nat || (nat_of_ascii c =? 127)%nat then
    String bslash
      ("u00" ++ String (hex_digit (nat_of_ascii c / 16))
                  (String (hex_digit (nat_of_ascii c mod 16)) ""))
  else String c "".

Fixpoint escape (s : string) : string :=
  match s with
  | EmptyString => ""
  | String c s' => escape_char c ++ escape s'
  end.

Definition write_str (s : string) : string :=
  String dquote (escape s ++ String dquote "").

Definition write_int (n : Z) : string :=
  NilZero.string_of_int (Z.to_int n).

Fixpoint repeat_char (c : ascii) (n : nat) : string :=
  match n with
  | O => ""
  | S n' => String c (repeat_char c n')
  end.

(** The decimal digits of the fraction [num / 2^k], for [num < 2^k]. *)
Fixpoint fraction_digits (k : nat) (num den : Z) : string :=
  match k with
  | O => ""
  | S k' =>
      if (num =? 0)%Z then ""
      else write_int (10 * num / den) ++ fraction_digits k' ((10 * num) mod den) den
  end.

Definition write_float (x : spec_float) : string :=
  match x with
  | S754_nan => "NaN"
  | S754_infinity false => "Infinity"
  | S754_infinity true => "-Infinity"
  | S754_zero false => "0.0"
  | S754_zero true => "-0.0"
  | S754_finite s m e =>
      (if s then "-" else "")
      ++ (if (0 <=? e)%Z then write_int (Z.pos m * 2 ^ e) ++ ".0"
          else
            let den := (2 ^ (- e))%Z in
            let frac := fraction_digits (Z.to_nat (- e)) (Z.pos m mod den) den in
            write_int (Z.pos m / den) ++ "." ++ (if frac =? "" then "0" else frac))
  end.

Definition newline_indent (indent level : nat) : string :=
  String lf (repeat_char " " (indent * level)).

Fixpoint join (sep : string) (l : list string) : string :=
  match l with
  | [] => ""
  | [s] => s
  | s :: l' => s ++ sep ++ join sep l'
  end.

(** [json.dumps(v, indent=indent)], inside [level] containers. *)
Fixpoint write (indent level : nat) (v : value) : string :=
  match v with
  | VNone => "null"
  | VBool true => "true"
  | VBool false => "false"
  | VInt n => write_int n
  | VFloat x => write_float x
  | VStr s => write_str s
  | VList [] => "[]"
  | VList items =>
      "[" ++ newline_indent indent (S level)
      ++ join ("," ++ newline_indent indent (S level))
           (map (write indent (S level)) items)
      ++ newline_indent indent level ++ "]"
  | VDict [] => "{}"
  | VDict fields =>
      "{" ++ newline_indent indent (S level)
      ++ join ("," ++ newline_indent indent (S level))
           (map (fun kv => write_str (fst kv) ++ ": " ++ write indent (S level) (snd kv))
              fields)
      ++ newline_indent indent level ++ "}"
  end.

Definition dumps (indent : nat) (v : value) : string := write indent 0 v.

(** *** Reading *)

Definition is_ws (c : ascii) : bool :=
  (c =? " ")%char || (c =? lf)%char || (c =? cr)%char || (c =? tab)%char.

Fixpoint skip_ws (s : string) : string :=
  match s with
  | EmptyString => ""
  | String c s' => if is_ws c then skip_ws s' else s
  end.

Definition is_digit (c : ascii) : bool :=
  (48 <=? nat_of_ascii c)%nat && (nat_of_ascii c <=? 57)%nat.

Definition digit_of (c : ascii) : Z := Z.of_nat (nat_of_ascii c - 48).

Definition unescape (c : ascii) : option ascii :=
  if (c =? dquote)%char then Some dquote
  else if (c =? bslash)%char then Some bslash
  else if (c =? "/")%char then Some "/"%char
  else if (c =? "n")%char then Some lf
  else if (c =? "r")%char then Some cr
  else if (c =? "t")%char then Some tab
  else if (c =? "b")%char then Some bsp
  else if (c =? "f")%char then Some ff
  else None.

(** A string literal, from after its opening quote: the string and the
    text after the closing quote. The escape [\uXXXX] is outside the
    fragment. *)
Fixpoint read_str (s : string) : option (string * string) :=
  match s with
  | EmptyString => None
  | String c s' =>
      if (c =? dquote)%char then Some ("", s')
      else if (c =? bslash)%char then
        match s' with
        | EmptyString => None
        | String e s'' =>
            match unescape e, read_str s'' with
            | Some c', Some (str, rest) => Some (String c' str, rest)
            | _, _ => None
            end
        end
      else if (nat_of_ascii c <? 32)%nat then None
      else
        match read_str s' with
        | Some (str, rest) => Some (String c str, rest)
        | None => None
        end
  end.

Fixpoint read_digits (acc : Z) (s : string) : Z * string :=
  match s with
  | EmptyString => (acc, s)
  | String c s' =>
      if is_digit c then read_digits (10 * acc + digit_of c)%Z s' else (acc, s)
  end.

(** The digits of an integer, [0] or without a leading zero. *)
Definition read_nat (s : string) : option (Z * string) :=
  match s with
  | EmptyString => None
  | String c s' =>
      if (c =? "0")%char then Some (0%Z, s')
      else if is_digit c then Some (read_digits 0 s)
      else None
  end.

(** A number that is followed by a fraction or an exponent is a float. *)
Definition not_float (s : string) : bool :=
  match s with
  | EmptyString => true
  | String c _ => negb ((c =? ".")%char || (c =? "e")%char || (c =? "E")%char)
  end.

Definition read_int (s : string) : option (Z * string) :=
  let '(neg, s1) :=
    match s with
    | String c s' => if (c =? "-")%char then (true, s') else (false, s)
    | EmptyString => (false, s)
    end in
  match read_nat s1 with
  | Some (n, rest) =>
      if not_float rest then Some (if (neg : bool) then (- n)%Z else n, rest) else None
  | None => None
  end.

Fixpoint drop (n : nat) (s : string) : string :=
  match n, s with
  | S n', String _ s' => drop n' s'
  | _, _ => s
  end.

Fixpoint read_value (fuel : nat) (s : string) {struct fuel} : option (value * string) :=
  match fuel with
  | O => None
  | S fuel' =>
      match s with
      | EmptyString => None
      | String c s' =>
          if (c =? "[")%char then
            match skip_ws s' with
            | EmptyString => None
            | String c1 rest as s1 =>
                if (c1 =? "]")%char then Some (VList [], rest)
                else
                  match read_items fuel' s1 with
                  | Some (items, rest') => Some (VList items, rest')
                  | None => None
                  end
            end
          else if (c =? "{")%char then
            match skip_ws s' with
            | EmptyString => None
            | String c1 rest as s1 =>
                if (c1 =? "}")%char then Some (VDict [], rest)
                else
                  match read_members fuel' [] s1 with
                  | Some (fields, rest') => Some (VDict fields, rest')
                  | None => None
                  end
            end
          else if (c =? dquote)%char then
            match read_str s' with
            | Some (str, rest) => Some (VStr str, rest)
            | None => None
            end
          else if prefix "null" s then Some (VNone, drop 4 s)
          else if prefix "true" s then Some (VBool true, drop 4 s)
          else if prefix "false" s then Some (VBool false, drop 5 s)
          else
            match read_int s with
            | Some (n, rest) => Some (VInt n, rest)
            | None => None
            end
      end
  end

(** The elements of an array, from the first character of an element. *)
with read_items (fuel : nat) (s : string) {struct fuel} : option (list value * string) :=
  match fuel with
  | O => None
  | S fuel' =>
      match read_value fuel' s with
      | None => None
      | Some (v, rest) =>
          match skip_ws rest with
          | EmptyString => None
          | String c rest' =>
              if (c =? "]")%char then Some ([v], rest')
              else if (c =? ",")%char then
                match read_items fuel' (skip_ws rest') with
                | Some (vs, rest'') => Some (v :: vs, rest'')
                | None => None
                end
              else None
          end
      end
  end

(** The members of an object, from the opening quote of a key; [acc] holds
    the members read so far. *)
with read_members (fuel : nat) (acc : dict) (s : string) {struct fuel}
  : option (dict * string) :=
  match fuel with
  | O => None
  | S fuel' =>
      match s with
      | EmptyString => None
      | String c s' =>
          if (c =? dquote)%char then
            match read_str s' with
            | None => None
            | Some (k, rest) =>
                match skip_ws rest with
                | EmptyString => None
                | String c1 rest1 =>
                    if (c1 =? ":")%char then
                      match read_value fuel' (skip_ws rest1) with
                      | None => None
                      | Some (v, rest2) =>
                          match skip_ws rest2 with
                          | EmptyString => None
                          | String c2 rest3 =>
                              if (c2 =? "}")%char then Some (dict_set k v acc, rest3)
                              else if (c2 =? ",")%char then
                                read_members fuel' (dict_set k v acc) (skip_ws rest3)
                              else None
                          end
                      end
                    else None
                end
            end
          else None
      end
  end.

(** [json.loads(text)]: one value, with blanks around it and nothing else. *)
Definition loads (text : string) : option value :=
  match read_value (S (2 * String.length text)) (skip_ws text) with
  | Some (v, rest) =>
      match skip_ws rest with
      | EmptyString => Some v
      | String _ _ => None
      end
  | None => None
  end.

(** A JSON text written with ['] for the double quote. *)
Fixpoint text (s : string) : string :=
  match s with
  | EmptyString => ""
  | String c s' => String (if (c =? "'")%char then dquote else c) (text s')
  end.

End RefJson.

(** ** Reading outcomes *)

(** The names a log says were opened for reading, in the order of the
    reads. *)
Fixpoint reads (l : list event) : list string :=
  match l with
  | [] => []
  | Read name :: l' => name :: reads l'
  | _ :: l' => reads l'
  end.

(** The objects on which the body of the inner loop does not raise: a
    mapping; a string that does not contain [rendered]; a list that has no
    element equal to the string [rendered]. *)
Definition entry_accepted (msg : value) : bool :=
  match msg with
  | VDict _ => true
  | VStr s => negb (str_contains "rendered" s)
  | VList l => negb (existsb (eq_str "rendered") l)
  | _ => false
  end.

(** ** Example records and directories *)

Module Examples.

(** The record of the specification's first scenario. *)
Definition hi_record : dict :=
  [("messages", VList [VDict [("text", VStr "hi"); ("rendered", VStr "<p>hi</p>")]])].

(** A record with fields around [messages], an entry without [rendered],
    and the key [rendered] both nested inside an entry and at the top. *)
Definition chat_messages : list value :=
  [VDict [("role", VStr "user"); ("text", VStr "hi")];
   VDict [("role", VStr "assistant");
          ("rendered", VStr "<p>hello</p>");
          ("meta", VDict [("rendered", VBool true)]);
          ("text", VStr "hello")]].

Definition chat_record : dict :=
  [("id", VInt 7); ("messages", VList chat_messages); ("rendered", VStr "top")].

(** The files of the specification's scenarios: [a.json] holds a message
    with a [rendered] field, [b.json] a record without [messages]. *)
Definition hi_text : string :=
  RefJson.text "{'messages':[{'text':'hi','rendered':'<p>hi</p>'}]}".

Definition other_text : string := RefJson.text "{'other':1}".

(** A record with [messages] and no [rendered] field anywhere, on one line. *)
Definition plain_text : string :=
  RefJson.text "{'messages':[{'text':'yo'}],'title':'t'}".

Definition other_record : dict := [("other", VInt 1)].

Definition plain_record : dict :=
  [("messages", VList [VDict [("text", VStr "yo")]]); ("title", VStr "t")].

Definition other_dir : directory := [("b.json", File other_text)].

(** A directory in which the second selected entry is no file. *)
Definition broken : directory :=
  [("a.json", File hi_text); ("x.json", Dir); ("c.json", File plain_text)].

Definition sessions : directory :=
  [("a.json", File hi_text);
   ("notes.txt", File "not json");
   ("b.json", File other_text);
   ("c.json", File plain_text);
   ("old", Dir)].

(** A directory in which nothing matches the pattern. *)
Definition no_sessions : directory :=
  [("notes.txt", File "not json"); ("a.json.bak", File hi_text); ("old", Dir)].


(** A directory in which a file without [messages] stands before an entry
    the run dies on, and a file with [messages] after it. *)
Definition broken_after : directory :=
  [("b.json", File other_text); ("x.json", Dir); ("a.json", File hi_text)].

End Examples.

(** * Properties *)

(** ** Dicts *)

Section DictFacts.

Variable k : string.

Lemma dict_get_del_same (d : dict) : dict_get k (dict_del k d) = None.
Proof.
  induction d as [|[k' v] d IH]; simpl; [reflexivity|].
  destruct (k' =? k) eqn:E; simpl; [exact IH|].
  rewrite E. exact IH.
Qed.

Lemma dict_get_del_other (k' : string) (d : dict) :
  k' <> k -> dict_get k' (dict_del k d) = dict_get k' d.
Proof.
  intros Hne. induction d as [|[k0 v] d IH]; simpl; [reflexivity|].
  destruct (k0 =? k) eqn:E; simpl.
  - apply String.eqb_eq in E. subst k0.
    destruct (k =? k') eqn:E'; [|exact IH].
    apply String.eqb_eq in E'. congruence.
  - rewrite IH. reflexivity.
Qed.

Lemma dict_mem_del (d : dict) : dict_mem k (dict_del k d) = false.
Proof. unfold dict_mem. rewrite dict_get_del_same. reflexivity. Qed.

Lemma dict_del_absent (d : dict) : dict_mem k d = false -> dict_del k d = d.
Proof.
  unfold dict_mem. induction d as [|[k' v] d IH]; simpl; [reflexivity|].
  destruct (k' =? k) eqn:E; simpl; [discriminate|].
  intros H. rewrite (IH H). reflexivity.
Qed.

Lemma keys_del (d : dict) :
  keys (dict_del k d) = filter (fun k' => negb (k' =? k)) (keys d).
Proof.
  induction d as [|[k' v] d IH]; simpl; [reflexivity|].
  destruct (k' =? k); simpl; rewrite IH; reflexivity.
Qed.

Lemma dict_get_set_same (v : value) (d : dict) :
  dict_get k (dict_set k v d) = Some v.
Proof.
  induction d as [|[k' v'] d IH]; simpl.
  - rewrite String.eqb_refl. reflexivity.
  - destruct (k' =? k) eqn:E; simpl; rewrite E; [reflexivity | exact IH].
Qed.

Lemma dict_get_set_other (k' : string) (v : value) (d : dict) :
  k' <> k -> dict_get k' (dict_set k v d) = dict_get k' d.
Proof.
  intros Hne. induction d as [|[k0 v0] d IH]; simpl.
  - destruct (k =? k') eqn:E; [|reflexivity].
    apply String.eqb_eq in E. congruence.
  - destruct (k0 =? k) eqn:E; simpl.
    + apply String.eqb_eq in E. subst k0.
      destruct (k =? k') eqn:E'; [|reflexivity].
      apply String.eqb_eq in E'. congruence.
    + rewrite IH. reflexivity.
Qed.

Lemma keys_set_present (v : value) (d : dict) :
  dict_mem k d = true -> keys (dict_set k v d) = keys d.
Proof.
  unfold dict_mem. induction d as [|[k' v'] d IH]; simpl; [discriminate|].
  destruct (k' =? k) eqn:E; simpl; [reflexivity|].
  intros H. rewrite (IH H). reflexivity.
Qed.

Lemma dict_mem_set (v : value) (d : dict) : dict_mem k (dict_set k v d) = true.
Proof. unfold dict_mem. rewrite dict_get_set_same. reflexivity. Qed.

Lemma dict_set_set (v : value) (d : dict) :
  dict_set k v (dict_set k v d) = dict_set k v d.
Proof.
  induction d as [|[k' v'] d IH]; simpl.
  - rewrite String.eqb_refl. reflexivity.
  - destruct (k' =? k) eqn:E; simpl; rewrite E; [reflexivity|].
    rewrite IH. reflexivity.
Qed.

Lemma dict_set_same (v : value) (d : dict) :
  dict_get k d = Some v -> dict_set k v d = d.
Proof.
  induction d as [|[k' v'] d IH]; simpl; [discriminate|].
  destruct (k' =? k) eqn:E.
  - intros H. injection H as ->. reflexivity.
  - intros H. rewrite (IH H). reflexivity.
Qed.

End DictFacts.

Lemma rendered_removed_del (m : dict) : rendered_removed m (dict_del "rendered" m).
Proof.
  repeat split.
  - apply dict_mem_del.
  - intros k Hk. apply dict_get_del_other. exact Hk.
  - apply keys_del.
Qed.

(** ** The loops on objects *)

(** The inner loop's body on a message entry: whether or not the entry has
    the field, it ends without it. *)
Lemma strip_msg_entry (m : dict) : strip_msg (VDict m) = ok (VDict (dict_del "rendered" m)).
Proof.
  unfold strip_msg. simpl.
  destruct (dict_mem "rendered" m) eqn:E; simpl.
  - reflexivity.
  - rewrite (dict_del_absent _ _ E). reflexivity.
Qed.

Lemma mapM_strip_entries (msgs : list value) :
  forallb message_entry msgs = true ->
  mapM strip_msg msgs = ok (map without_rendered msgs).
Proof.
  induction msgs as [|msg msgs IH]; simpl; [reflexivity|].
  intros H. apply andb_prop in H. destruct H as [Hm Hrest].
  destruct msg; try discriminate.
  rewrite strip_msg_entry. simpl. rewrite (IH Hrest). reflexivity.
Qed.

(** The guarded block on a session record that has [messages]: it never
    raises, and leaves the record with each entry stripped at its place. *)
Lemma strip_rendered_session (d : dict) (msgs : list value) :
  session_record (VDict d) = true ->
  dict_get "messages" d = Some (VList msgs) ->
  strip_rendered (VDict d)
  = ok (VDict (dict_set "messages" (VList (map without_rendered msgs)) d)).
Proof.
  intros Hrec Hget. unfold strip_rendered, strip_messages. simpl in *.
  rewrite Hget in *. simpl.
  rewrite (mapM_strip_entries _ Hrec). reflexivity.
Qed.

Lemma map_without_rendered_nth (msgs : list value) (i : nat) (m : dict) :
  nth_error msgs i = Some (VDict m) ->
  nth_error (map without_rendered msgs) i = Some (VDict (dict_del "rendered" m)).
Proof. intros H. rewrite nth_error_map, H. reflexivity. Qed.

(** C1. For a session record and an entry of its [messages] that has a
    [rendered] field: the guarded block ends, and in the record it leaves the
    entry at the same place has no [rendered] field and has every other field
    with its original value. *)
Theorem rendered_field_removed (d : dict) (msgs : list value) :
  session_record (VDict d) = true ->
  dict_get "messages" d = Some (VList msgs) ->
  exists data' msgs',
    strip_rendered (VDict d) = ok data'
    /\ py_getitem "messages" data' = ok (VList msgs')
    /\ forall i m,
         nth_error msgs i = Some (VDict m) ->
         dict_mem "rendered" m = true ->
         exists m',
           nth_error msgs' i = Some (VDict m')
           /\ dict_mem "rendered" m' = false
           /\ forall k, k <> "rendered" -> dict_get k m' = dict_get k m.
Proof.
  intros Hrec Hget.
  exists (VDict (dict_set "messages" (VList (map without_rendered msgs)) d)),
    (map without_rendered msgs).
  split; [apply strip_rendered_session; assumption|].
  split; [simpl; rewrite dict_get_set_same; reflexivity|].
  intros i m Hi _. exists (dict_del "rendered" m).
  split; [apply map_without_rendered_nth; exact Hi|].
  split; [apply dict_mem_del|].
  intros k Hk. apply dict_get_del_other. exact Hk.
Qed.

Lemma rendered_field_removed_witness :
  exists data' msgs',
    strip_rendered (VDict Examples.chat_record) = ok data'
    /\ py_getitem "messages" data' = ok (VList msgs')
    /\ forall i m,
         nth_error Examples.chat_messages i = Some (VDict m) ->
         dict_mem "rendered" m = true ->
         exists m',
           nth_error msgs' i = Some (VDict m')
           /\ dict_mem "rendered" m' = false
           /\ forall k, k <> "rendered" -> dict_get k m' = dict_get k m.
Proof.
  apply (rendered_field_removed Examples.chat_record Examples.chat_messages);
    reflexivity.
Defined.

Lemma entries_stripped_in_place (msgs : list value) :
  forallb message_entry msgs = true ->
  Forall2
    (fun msg msg' =>
       exists m m',
         msg = VDict m /\ msg' = VDict m'
         /\ rendered_removed m m'
         /\ (dict_mem "rendered" m = false -> m' = m))
    msgs (map without_rendered msgs).
Proof.
  induction msgs as [|msg msgs IH]; simpl; intros H; [constructor|].
  apply andb_prop in H. destruct H as [Hm Hrest].
  constructor; [|exact (IH Hrest)].
  destruct msg as [| | | | |?|m]; try discriminate.
  exists m, (dict_del "rendered" m).
  split; [reflexivity|]. split; [reflexivity|].
  split; [apply rendered_removed_del | apply dict_del_absent].
Qed.

(** C5. For a session record with [messages]: the list the guarded block
    leaves has the length of the original, and its entry at each place is the
    original entry of that place without its [rendered] field (the same entry
    when it had none). Nothing is added, dropped or moved. *)
Theorem messages_order_preserved (d : dict) (msgs : list value) :
  session_record (VDict d) = true ->
  dict_get "messages" d = Some (VList msgs) ->
  exists data' msgs',
    strip_rendered (VDict d) = ok data'
    /\ py_getitem "messages" data' = ok (VList msgs')
    /\ length msgs' = length msgs
    /\ Forall2
         (fun msg msg' =>
            exists m m',
              msg = VDict m /\ msg' = VDict m'
              /\ rendered_removed m m'
              /\ (dict_mem "rendered" m = false -> m' = m))
         msgs msgs'.
Proof.
  intros Hrec Hget.
  exists (VDict (dict_set "messages" (VList (map without_rendered msgs)) d)),
    (map without_rendered msgs).
  split; [apply strip_rendered_session; assumption|].
  split; [simpl; rewrite dict_get_set_same; reflexivity|].
  split; [apply length_map|].
  apply entries_stripped_in_place.
  simpl in Hrec. rewrite Hget in Hrec. exact Hrec.
Qed.

Lemma messages_order_preserved_witness :
  exists data' msgs',
    strip_rendered (VDict Examples.chat_record) = ok data'
    /\ py_getitem "messages" data' = ok (VList msgs')
    /\ length msgs' = length Examples.chat_messages
    /\ Forall2
         (fun msg msg' =>
            exists m m',
              msg = VDict m /\ msg' = VDict m'
              /\ rendered_removed m m'
              /\ (dict_mem "rendered" m = false -> m' = m))
         Examples.chat_messages msgs'.
Proof.
  apply (messages_order_preserved Examples.chat_record Examples.chat_messages);
    reflexivity.
Defined.

(** C6. A message entry without a [rendered] field is unchanged: the body of
    the inner loop returns it as it is, and in a session record the guarded
    block leaves it at its place with the same fields and values. *)
Theorem entry_without_rendered_unchanged (d : dict) (msgs : list value) :
  session_record (VDict d) = true ->
  dict_get "messages" d = Some (VList msgs) ->
  exists data' msgs',
    strip_rendered (VDict d) = ok data'
    /\ py_getitem "messages" data' = ok (VList msgs')
    /\ forall i m,
         nth_error msgs i = Some (VDict m) ->
         dict_mem "rendered" m = false ->
         strip_msg (VDict m) = ok (VDict m)
         /\ nth_error msgs' i = Some (VDict m).
Proof.
  intros Hrec Hget.
  exists (VDict (dict_set "messages" (VList (map without_rendered msgs)) d)),
    (map without_rendered msgs).
  split; [apply strip_rendered_session; assumption|].
  split; [simpl; rewrite dict_get_set_same; reflexivity|].
  intros i m Hi Hno. split.
  - rewrite strip_msg_entry, (dict_del_absent _ _ Hno). reflexivity.
  - rewrite (map_without_rendered_nth _ _ _ Hi), (dict_del_absent _ _ Hno).
    reflexivity.
Qed.

Lemma entry_without_rendered_unchanged_witness :
  exists data' msgs',
    strip_rendered (VDict Examples.chat_record) = ok data'
    /\ py_getitem "messages" data' = ok (VList msgs')
    /\ forall i m,
         nth_error Examples.chat_messages i = Some (VDict m) ->
         dict_mem "rendered" m = false ->
         strip_msg (VDict m) = ok (VDict m)
         /\ nth_error msgs' i = Some (VDict m).
Proof.
  apply (entry_without_rendered_unchanged Examples.chat_record Examples.chat_messages);
    reflexivity.
Defined.

(** C10. For a session record with [messages]: the record the guarded block
    leaves has the fields of the original in the same order, each field other
    than [messages] with its original value; and each entry keeps, under
    every field other than its own [rendered], the very value it had, so a
    key [rendered] inside such a value is still there. *)
Theorem other_fields_preserved (d : dict) (msgs : list value) :
  session_record (VDict d) = true ->
  dict_get "messages" d = Some (VList msgs) ->
  exists d' msgs',
    strip_rendered (VDict d) = ok (VDict d')
    /\ keys d' = keys d
    /\ (forall k, k <> "messages" -> dict_get k d' = dict_get k d)
    /\ dict_get "messages" d' = Some (VList msgs')
    /\ forall i m,
         nth_error msgs i = Some (VDict m) ->
         exists m',
           nth_error msgs' i = Some (VDict m')
           /\ forall k, k <> "rendered" -> dict_get k m' = dict_get k m.
Proof.
  intros Hrec Hget.
  exists (dict_set "messages" (VList (map without_rendered msgs)) d),
    (map without_rendered msgs).
  split; [apply strip_rendered_session; assumption|].
  split; [apply keys_set_present; unfold dict_mem; rewrite Hget; reflexivity|].
  split; [intros k Hk; apply dict_get_set_other; exact Hk|].
  split; [apply dict_get_set_same|].
  intros i m Hi. exists (dict_del "rendered" m).
  split; [apply map_without_rendered_nth; exact Hi|].
  intros k Hk. apply dict_get_del_other. exact Hk.
Qed.

Lemma other_fields_preserved_witness :
  exists d' msgs',
    strip_rendered (VDict Examples.chat_record) = ok (VDict d')
    /\ keys d' = keys Examples.chat_record
    /\ (forall k, k <> "messages" -> dict_get k d' = dict_get k Examples.chat_record)
    /\ dict_get "messages" d' = Some (VList msgs')
    /\ forall i m,
         nth_error Examples.chat_messages i = Some (VDict m) ->
         exists m',
           nth_error msgs' i = Some (VDict m')
           /\ forall k, k <> "rendered" -> dict_get k m' = dict_get k m.
Proof.
  apply (other_fields_preserved Examples.chat_record Examples.chat_messages);
    reflexivity.
Defined.

(** The record of the example after the guarded block: the entry's own
    [rendered] is gone; the one inside [meta] and the one at the top of the
    record are not. *)
Example chat_record_stripped :
  strip_rendered (VDict Examples.chat_record)
  = ok (VDict
          [("id", VInt 7);
           ("messages",
            VList
              [VDict [("role", VStr "user"); ("text", VStr "hi")];
               VDict [("role", VStr "assistant");
                      ("meta", VDict [("rendered", VBool true)]);
                      ("text", VStr "hello")]]);
           ("rendered", VStr "top")]).
Proof. reflexivity. Qed.

(** ** Objects stay Python objects *)

Lemma existsb_filter_false {A : Type} (p f : A -> bool) (l : list A) :
  existsb p l = false -> existsb p (filter f l) = false.
Proof.
  induction l as [|a l IH]; simpl; [reflexivity|].
  intros H. apply orb_false_elim in H. destruct H as [Ha Hl].
  destruct (f a); simpl; [rewrite Ha|]; auto.
Qed.

Lemma nodupb_filter (f : string -> bool) (l : list string) :
  nodupb l = true -> nodupb (filter f l) = true.
Proof.
  induction l as [|x l IH]; simpl; [reflexivity|].
  intros H. apply andb_prop in H. destruct H as [Hx Hl].
  destruct (f x); simpl; [|auto].
  apply negb_true_iff in Hx.
  rewrite (existsb_filter_false _ f _ Hx), (IH Hl). reflexivity.
Qed.

Lemma forallb_filter {A : Type} (p f : A -> bool) (l : list A) :
  forallb p l = true -> forallb p (filter f l) = true.
Proof.
  induction l as [|a l IH]; simpl; [reflexivity|].
  intros H. apply andb_prop in H. destruct H as [Ha Hl].
  destruct (f a); simpl; [rewrite Ha|]; auto.
Qed.

Lemma unique_keys_del (k : string) (d : dict) :
  unique_keys (VDict d) = true -> unique_keys (VDict (dict_del k d)) = true.
Proof.
  simpl. intros H. apply andb_prop in H. destruct H as [Hk Hv].
  change (map fst (dict_del k d)) with (keys (dict_del k d)).
  rewrite keys_del. unfold keys.
  rewrite (nodupb_filter _ _ Hk). unfold dict_del.
  rewrite (forallb_filter _ _ _ Hv). reflexivity.
Qed.

(** What the body of the inner loop returns, when it returns. *)
Lemma strip_msg_result (msg msg' : value) :
  strip_msg msg = ok msg' -> msg' = without_rendered msg.
Proof.
  destruct msg as [| | | |s|l|m]; try discriminate.
  - unfold strip_msg. simpl. destruct (str_contains "rendered" s); simpl;
      [discriminate | intros H; injection H as <-; reflexivity].
  - unfold strip_msg. simpl. destruct (existsb (eq_str "rendered") l); simpl;
      [discriminate | intros H; injection H as <-; reflexivity].
  - rewrite strip_msg_entry. intros H. injection H as <-. reflexivity.
Qed.

Lemma without_rendered_unique_keys (msg : value) :
  unique_keys msg = true -> unique_keys (without_rendered msg) = true.
Proof.
  destruct msg; try (intros H; exact H). apply unique_keys_del.
Qed.

Lemma mapM_strip_unique_keys (l l' : list value) :
  mapM strip_msg l = ok l' ->
  forallb unique_keys l = true -> forallb unique_keys l' = true.
Proof.
  revert l'. induction l as [|a l IH]; simpl; intros l' H Hu.
  - injection H as <-. reflexivity.
  - destruct (strip_msg a) as [e|b] eqn:Ha; simpl in H; [discriminate|].
    destruct (mapM strip_msg l) as [e|bs]; simpl in H; [discriminate|].
    injection H as <-. apply andb_prop in Hu. destruct Hu as [Hua Hul]. simpl.
    rewrite (strip_msg_result _ _ Ha), (without_rendered_unique_keys _ Hua).
    apply (IH bs eq_refl Hul).
Qed.

Lemma strip_messages_unique_keys (messages messages' : value) :
  strip_messages messages = ok messages' ->
  unique_keys messages = true -> unique_keys messages' = true.
Proof.
  unfold strip_messages.
  destruct messages as [| | | |s|l|m]; try discriminate; simpl;
    destruct (mapM strip_msg _) as [e|items'] eqn:Hm; simpl; try discriminate;
    intros H; injection H as <-; try (intros Hu; exact Hu).
  simpl. apply (mapM_strip_unique_keys _ _ Hm).
Qed.

Lemma dict_get_unique_keys (k : string) (d : dict) (v : value) :
  dict_get k d = Some v ->
  forallb (fun kv => unique_keys (snd kv)) d = true -> unique_keys v = true.
Proof.
  induction d as [|[k' v'] d IH]; simpl; [discriminate|].
  intros H Hu. apply andb_prop in Hu. destruct Hu as [Hv Hd].
  destruct (k' =? k); [injection H as <-; exact Hv | auto].
Qed.

Lemma dict_set_unique_keys (k : string) (v : value) (d : dict) :
  unique_keys v = true ->
  forallb (fun kv => unique_keys (snd kv)) d = true ->
  forallb (fun kv => unique_keys (snd kv)) (dict_set k v d) = true.
Proof.
  intros Hv. induction d as [|[k' v'] d IH]; simpl.
  - rewrite Hv. reflexivity.
  - intros H. apply andb_prop in H. destruct H as [Hv' Hd].
    destruct (k' =? k); simpl; [rewrite Hv, Hd | rewrite Hv', (IH Hd)]; reflexivity.
Qed.

(** The guarded block keeps the keys of every dict distinct: the association
    lists stay within what Python's dicts can hold. *)
Lemma strip_rendered_unique_keys (data data' : value) :
  strip_rendered data = ok data' ->
  unique_keys data = true -> unique_keys data' = true.
Proof.
  destruct data as [| | | | | |d]; try discriminate.
  unfold strip_rendered. simpl.
  destruct (dict_get "messages" d) as [messages|] eqn:Hget; simpl; [|discriminate].
  destruct (strip_messages messages) as [e|messages'] eqn:Hs; simpl; [discriminate|].
  intros H Hu. injection H as <-. apply andb_prop in Hu. destruct Hu as [Hk Hv].
  simpl. change (map fst (dict_set "messages" messages' d))
    with (keys (dict_set "messages" messages' d)).
  rewrite keys_set_present; [|unfold dict_mem; rewrite Hget; reflexivity].
  unfold keys. rewrite Hk. simpl. apply dict_set_unique_keys; [|exact Hv].
  apply (strip_messages_unique_keys _ _ Hs).
  apply (dict_get_unique_keys _ _ _ Hget Hv).
Qed.

(** ** The guarded block, twice *)

(** An object the body of the inner loop has passed is one it leaves alone. *)
Lemma strip_msg_idem (msg msg' : value) :
  strip_msg msg = ok msg' -> strip_msg msg' = ok msg'.
Proof.
  destruct msg as [| | | |s|l|m]; try discriminate.
  - unfold strip_msg. simpl. destruct (str_contains "rendered" s) eqn:E; simpl.
    + discriminate.
    + intros H. injection H as <-. unfold strip_msg. simpl. rewrite E. reflexivity.
  - unfold strip_msg. simpl. destruct (existsb (eq_str "rendered") l) eqn:E; simpl.
    + discriminate.
    + intros H. injection H as <-. unfold strip_msg. simpl. rewrite E. reflexivity.
  - rewrite strip_msg_entry. intros H. injection H as <-.
    rewrite strip_msg_entry, (dict_del_absent _ _ (dict_mem_del _ _)). reflexivity.
Qed.

Lemma mapM_idem {A : Type} (f : A -> result A) :
  (forall a b, f a = ok b -> f b = ok b) ->
  forall l l', mapM f l = ok l' -> mapM f l' = ok l'.
Proof.
  intros Hf. induction l as [|a l IH]; simpl; intros l' H.
  - injection H as <-. reflexivity.
  - destruct (f a) as [e|b] eqn:Ha; simpl in H; [discriminate|].
    destruct (mapM f l) as [e|bs] eqn:Hl; simpl in H; [discriminate|].
    injection H as <-. simpl. rewrite (Hf _ _ Ha). simpl.
    rewrite (IH bs eq_refl). reflexivity.
Qed.

Lemma strip_messages_idem (messages messages' : value) :
  strip_messages messages = ok messages' ->
  strip_messages messages' = ok messages'.
Proof.
  intros H.
  destruct messages as [| | | |s|l|m]; try discriminate.
  - assert (messages' = VStr s) as ->; [|exact H].
    unfold strip_messages in H. simpl in H.
    destruct (mapM strip_msg _); simpl in H; [discriminate|]. injection H as <-.
    reflexivity.
  - unfold strip_messages in *. simpl in *.
    destruct (mapM strip_msg l) as [e|l'] eqn:Hl; simpl in H; [discriminate|].
    injection H as <-. simpl.
    rewrite (mapM_idem strip_msg strip_msg_idem _ _ Hl). reflexivity.
  - assert (messages' = VDict m) as ->; [|exact H].
    unfold strip_messages in H. simpl in H.
    destruct (mapM strip_msg _); simpl in H; [discriminate|]. injection H as <-.
    reflexivity.
Qed.

(** The record the guarded block leaves still has [messages], and the block
    leaves it as it is. *)
Lemma strip_rendered_idem (data data' : value) :
  strip_rendered data = ok data' ->
  py_in "messages" data' = ok true /\ strip_rendered data' = ok data'.
Proof.
  destruct data as [| | | | | |d]; try discriminate.
  unfold strip_rendered. simpl.
  destruct (dict_get "messages" d) as [messages|]; simpl; [|discriminate].
  destruct (strip_messages messages) as [e|messages'] eqn:Hs; simpl; [discriminate|].
  intros H. injection H as <-. simpl.
  rewrite dict_mem_set, dict_get_set_same. simpl.
  rewrite (strip_messages_idem _ _ Hs). simpl.
  rewrite dict_set_set. auto.
Qed.

(** ** The pattern *)




(** ** Directories and logs *)

Lemma lookup_put_same (name text : string) (d : directory) :
  lookup name (put_file name text d) = Some (File text).
Proof.
  induction d as [|[n e] d IH]; simpl.
  - rewrite String.eqb_refl. reflexivity.
  - destruct (n =? name) eqn:E; simpl; rewrite E; [reflexivity | exact IH].
Qed.

Lemma lookup_put_other (name name' text : string) (d : directory) :
  name' <> name -> lookup name' (put_file name text d) = lookup name' d.
Proof.
  intros Hne. induction d as [|[n e] d IH]; simpl.
  - destruct (name =? name') eqn:E; [|reflexivity].
    apply String.eqb_eq in E. congruence.
  - destruct (n =? name) eqn:E; simpl.
    + apply String.eqb_eq in E. subst n.
      destruct (name =? name') eqn:E'; [|reflexivity].
      apply String.eqb_eq in E'. congruence.
    + rewrite IH. reflexivity.
Qed.

Lemma names_put_present (name text : string) (d : directory) (e : entry) :
  lookup name d = Some e -> names (put_file name text d) = names d.
Proof.
  induction d as [|[n e'] d IH]; simpl; [discriminate|].
  destruct (n =? name) eqn:E; simpl; [reflexivity|].
  intros H. rewrite (IH H). reflexivity.
Qed.

Lemma put_file_same (name text : string) (d : directory) :
  lookup name d = Some (File text) -> put_file name text d = d.
Proof.
  induction d as [|[n e'] d IH]; simpl; [discriminate|].
  destruct (n =? name) eqn:E.
  - intros H. injection H as ->. reflexivity.
  - intros H. rewrite (IH H). reflexivity.
Qed.

Lemma lookup_in_names (name : string) (d : directory) (e : entry) :
  lookup name d = Some e -> In name (names d).
Proof.
  induction d as [|[n e'] d IH]; simpl; [discriminate|].
  destruct (n =? name) eqn:E.
  - apply String.eqb_eq in E. auto.
  - auto.
Qed.

Lemma nodupb_NoDup (l : list string) : nodupb l = true -> NoDup l.
Proof.
  induction l as [|x l IH]; simpl; intros H; [constructor|].
  apply andb_prop in H. destruct H as [Hx Hl]. constructor; [|exact (IH Hl)].
  intros Hin. apply negb_true_iff in Hx.
  assert (existsb (String.eqb x) l = true); [|congruence].
  apply existsb_exists. exists x. split; [exact Hin | apply String.eqb_refl].
Qed.

Lemma lookup_in (name : string) (d : directory) (e : entry) :
  lookup name d = Some e -> In (name, e) d.
Proof.
  induction d as [|[n e'] d IH]; simpl; [discriminate|].
  destruct (n =? name) eqn:E.
  - apply String.eqb_eq in E. subst n. intros H. injection H as ->. auto.
  - auto.
Qed.

Lemma flat_map_agree {A B : Type} (f g : A -> list B) (l : list A) :
  (forall a, In a l -> f a = g a) -> flat_map f l = flat_map g l.
Proof.
  induction l as [|a l IH]; simpl; intros H; [reflexivity|].
  rewrite (H a (or_introl eq_refl)), IH; [reflexivity|].
  intros b Hb. apply H. auto.
Qed.

Lemma snoc_split {A : Type} (l pre post : list A) (a x : A) :
  l ++ [a] = pre ++ x :: post ->
  (post = [] /\ pre = l /\ x = a)
  \/ (exists post', post = post' ++ [a] /\ l = pre ++ x :: post').
Proof.
  intros H. destruct post as [|y post0] using rev_ind.
  - apply app_inj_tail in H. destruct H as [-> ->]. left. auto.
  - clear IHpost0. right. exists post0.
    change (pre ++ x :: post0 ++ [y]) with (pre ++ (x :: post0) ++ [y]) in H.
    rewrite app_assoc in H. apply app_inj_tail in H. destruct H as [-> ->]. auto.
Qed.

Lemma writes_follow_reads_nil : writes_follow_reads [].
Proof. intros [|? ?] ? ? ? H; discriminate. Qed.

Lemma writes_follow_reads_snoc (l : list event) (e : event) :
  writes_follow_reads l ->
  (forall name text, e = Wrote name text -> In (Read name) l) ->
  writes_follow_reads (l ++ [e]).
Proof.
  intros Hl He pre name text post H.
  apply snoc_split in H. destruct H as [(_ & -> & Hx) | (post' & _ & ->)].
  - apply (He name text). symmetry. exact Hx.
  - apply (Hl pre name text post'). reflexivity.
Qed.

(** ** The script *)

Section ScriptFacts.

Variable json_loads : string -> option value.
Variable json_dumps : nat -> value -> string.

Abbreviation process := (process_session_file json_loads json_dumps).
Abbreviation rewrite := (rewrite_of json_loads json_dumps).
Abbreviation script := (run json_loads json_dumps).

(** The loop body, case by case: a name that is no file raises before
    anything is logged; a file that cannot be processed is read and then the
    body raises; a record without [messages] is read only; a record with
    [messages] is read and written. *)
Lemma process_session_file_eq (name : string) (w : world) :
  process name w
  = match lookup name (files w) with
    | None => (raise FileNotFoundError, w)
    | Some Dir => (raise IsADirectoryError, w)
    | Some (File text) =>
        match rewrite text with
        | inl e => (inl e, World (files w) (log w ++ [Read name]))
        | inr None => (ok tt, World (files w) (log w ++ [Read name]))
        | inr (Some text') =>
            (ok tt,
             World (put_file name text' (files w))
               (log w ++ [Read name; Wrote name text']))
        end
    end.
Proof.
  unfold process_session_file, rewrite_of, io_bind, open_read, json_load, lift.
  destruct (lookup name (files w)) as [[text|]|] eqn:Hl; try reflexivity.
  cbv beta iota delta [ok raise bind io_ret].
  destruct (json_loads text) as [data|]; simpl; [|reflexivity].
  destruct (py_in "messages" data) as [e|[|]]; simpl; try reflexivity.
  destruct (strip_rendered data) as [e|data']; simpl; [reflexivity|].
  unfold open_write. simpl. rewrite Hl. rewrite <- app_assoc. reflexivity.
Qed.

Lemma for_each_cons {A : Type} (a : A) (l : list A) (body : A -> IO unit) (w : world) :
  for_each (a :: l) body w
  = match body a w with
    | (inl e, w') => (inl e, w')
    | (inr _, w') => for_each l body w'
    end.
Proof. reflexivity. Qed.

(** A property of the world that every pass of the body keeps holds when
    the loop is left, by its end or by an exception. *)
Lemma for_each_invariant {A : Type} (P : world -> Prop) (body : A -> IO unit) :
  (forall a w, P w -> P (snd (body a w))) ->
  forall l w, P w -> P (snd (for_each l body w)).
Proof.
  intros Hbody. induction l as [|a l IH]; intros w Hw; [exact Hw|].
  rewrite for_each_cons. specialize (Hbody a w Hw).
  destruct (body a w) as [[e|[]] w']; simpl in *; auto.
Qed.

Lemma run_eq (d : directory) :
  script d
  = match for_each (filter (fnmatch "*.json") (names d)) process (World d []) with
    | (inl e, w') => (inl e, w')
    | (inr _, w') => (ok tt, World (files w') (log w' ++ [Printed cleared]))
    end.
Proof.
  unfold run, clear_cache, io_bind, glob, print, emit. simpl.
  destruct (for_each _ _ _) as [[e|[]] w']; reflexivity.
Qed.

(** C7. When no name of the directory matches the pattern, the run ends
    normally, the directory is as it was, and the log holds the completion
    line and nothing else: no file was read or written. *)
Theorem empty_directory_only_prints (d : directory) :
  filter (fnmatch "*.json") (names d) = [] ->
  script d = (ok tt, World d [Printed cleared]).
Proof. intros H. rewrite run_eq, H. reflexivity. Qed.

Lemma process_careful (d0 : directory) (name : string) (w : world) :
  careful d0 w -> careful d0 (snd (process name w)).
Proof.
  intros (Hn & Hw & Hr). rewrite process_session_file_eq.
  destruct (lookup name (files w)) as [[text|]|] eqn:Hl;
    try (repeat split; assumption).
  assert (Hin : In name (names d0)).
  { rewrite <- Hn. apply (lookup_in_names _ _ _ Hl). }
  assert (Hread : careful d0 (World (files w) (log w ++ [Read name]))).
  { repeat split; simpl.
    - exact Hn.
    - apply writes_follow_reads_snoc; [exact Hw | discriminate].
    - intros n H. apply in_app_or in H. destruct H as [H|[H|[]]]; auto.
      injection H as <-. exact Hin. }
  destruct (rewrite text) as [e|[text'|]]; simpl; try exact Hread.
  destruct Hread as (_ & Hw' & Hr').
  change (log w ++ [Read name; Wrote name text'])
    with (log w ++ [Read name] ++ [Wrote name text']).
  rewrite app_assoc. repeat split; simpl.
  - rewrite (names_put_present _ _ _ _ Hl). exact Hn.
  - apply writes_follow_reads_snoc; [exact Hw'|].
    intros n t H. injection H as <- _. apply in_or_app. right. left. reflexivity.
  - intros n H. apply in_app_or in H. destruct H as [H|[H|[]]]; [auto | discriminate].
Qed.

Lemma run_careful (d : directory) : careful d (snd (script d)).
Proof.
  rewrite run_eq.
  pose proof (for_each_invariant (careful d) process (process_careful d)
                (filter (fnmatch "*.json") (names d)) (World d [])) as H.
  assert (H0 : careful d (World d [])).
  { repeat split; simpl; [apply writes_follow_reads_nil | intros ? []]. }
  specialize (H H0).
  destruct (for_each _ _ _) as [[e|[]] w']; simpl in *; [exact H|].
  destruct H as (Hn & Hw & Hr). repeat split; simpl.
  - exact Hn.
  - apply writes_follow_reads_snoc; [exact Hw | discriminate].
  - intros n Hin. apply in_app_or in Hin. destruct Hin as [Hin|[Hin|[]]];
      [auto | discriminate].
Qed.

(** C8. Whatever the directory holds and however the run ends, the
    directory has the same names afterwards, in the same order; and every
    write in the log is to a name of the directory that the run read
    earlier. *)
Theorem no_file_created_or_deleted (d : directory) :
  names (files (snd (script d))) = names d
  /\ forall pre name text post,
       log (snd (script d)) = pre ++ Wrote name text :: post ->
       In (Read name) pre /\ In name (names d).
Proof.
  destruct (run_careful d) as (Hn & Hw & Hr). split; [exact Hn|].
  intros pre name text post H.
  pose proof (Hw pre name text post H) as Hread. split; [exact Hread|].
  apply Hr. rewrite H. apply in_or_app. left. exact Hread.
Qed.

(** *** Running the script again *)

Abbreviation step := (step_files json_loads json_dumps).
Abbreviation loop := (loop_files json_loads json_dumps).
Abbreviation settled := (stable json_loads json_dumps).
Abbreviation codec_reads_back := (reads_back json_loads json_dumps).

(** The loop, seen from the files: how it ends and the directory it
    leaves are those of [loop_files]. *)
Lemma process_files (name : string) (w : world) :
  (fst (process name w), files (snd (process name w)))
  = match step name (files w) with
    | inl e => (inl e, files w)
    | inr d' => (ok tt, d')
    end.
Proof.
  rewrite process_session_file_eq. unfold step_files.
  destruct (lookup name (files w)) as [[text|]|]; try reflexivity.
  destruct (rewrite text) as [e|[text'|]]; reflexivity.
Qed.

Lemma for_each_files (l : list string) (w : world) :
  (fst (for_each l process w), files (snd (for_each l process w)))
  = loop l (files w).
Proof.
  revert w. induction l as [|name l IH]; intros w; [reflexivity|].
  rewrite for_each_cons. simpl.
  pose proof (process_files name w) as Hp.
  destruct (process name w) as [[e|[]] w']; simpl in *;
    destruct (step name (files w)) as [e'|d']; try discriminate.
  - injection Hp as <- <-. reflexivity.
  - injection Hp as <-. apply IH.
Qed.

Lemma run_files (d : directory) :
  (fst (script d), files (snd (script d)))
  = loop (filter (fnmatch "*.json") (names d)) d.
Proof.
  rewrite run_eq. rewrite <- (for_each_files _ (World d [])).
  destruct (for_each _ _ _) as [[e|[]] w']; reflexivity.
Qed.

Lemma stable_step (name : string) (d : directory) :
  settled name d -> step name d = ok d.
Proof.
  intros (text & Hl & [Hr|Hr]); unfold step_files; rewrite Hl, Hr; [reflexivity|].
  simpl. rewrite (put_file_same _ _ _ Hl). reflexivity.
Qed.

Lemma step_lookup_other (name name' : string) (d d' : directory) :
  step name d = ok d' -> name' <> name -> lookup name' d' = lookup name' d.
Proof.
  unfold step_files. intros H Hne.
  destruct (lookup name d) as [[text|]|]; try discriminate.
  destruct (rewrite text) as [e|[text'|]]; try discriminate; injection H as <-.
  - apply lookup_put_other. exact Hne.
  - reflexivity.
Qed.

Lemma stable_kept_by_step (name name' : string) (d d' : directory) :
  step name d = ok d' -> settled name' d -> settled name' d'.
Proof.
  intros Hs Hst. destruct (string_dec name' name) as [->|Hne].
  - rewrite (stable_step _ _ Hst) in Hs. injection Hs as <-. exact Hst.
  - destruct Hst as (text & Hl & Hr). exists text.
    rewrite (step_lookup_other _ _ _ _ Hs Hne). auto.
Qed.

Lemma stable_kept_by_loop (name : string) (l : list string) :
  forall d r d', loop l d = (r, d') -> settled name d -> settled name d'.
Proof.
  induction l as [|n l IH]; simpl; intros d r d' H Hst.
  - injection H as _ <-. exact Hst.
  - destruct (step n d) as [e|d1] eqn:Hs.
    + injection H as _ <-. exact Hst.
    + apply (IH d1 r d' H). apply (stable_kept_by_step _ _ _ _ Hs Hst).
Qed.

(** The text the body writes is one it would write again. *)
Lemma rewrite_written (d : directory) (name text text' : string) :
  codec_reads_back d ->
  lookup name d = Some (File text) ->
  rewrite text = ok (Some text') ->
  rewrite text' = ok (Some text')
  /\ forall data data',
       json_loads text' = Some data ->
       strip_rendered data = ok data' ->
       json_loads (json_dumps 2 data') = Some data'.
Proof.
  intros Hrb Hl Hr. unfold rewrite_of in Hr.
  destruct (json_loads text) as [data|] eqn:Hd; [|discriminate].
  destruct (py_in "messages" data) as [e|[|]] eqn:Hin; simpl in Hr; try discriminate.
  destruct (strip_rendered data) as [e|data1] eqn:Hs; simpl in Hr; [discriminate|].
  injection Hr as <-.
  pose proof (Hrb name text data data1 Hl Hd Hin Hs) as Hback.
  destruct (strip_rendered_idem _ _ Hs) as [Hin1 Hs1].
  split.
  - unfold rewrite_of. rewrite Hback, Hin1. simpl. rewrite Hs1. reflexivity.
  - intros data0 data' H0 H1. rewrite Hback in H0. injection H0 as <-.
    rewrite Hs1 in H1. injection H1 as <-. exact Hback.
Qed.

Lemma step_settles (name : string) (d d' : directory) :
  codec_reads_back d -> step name d = ok d' -> settled name d'.
Proof.
  intros Hrb Hs. unfold step_files in Hs.
  destruct (lookup name d) as [[text|]|] eqn:Hl; try discriminate.
  destruct (rewrite text) as [e|[text'|]] eqn:Hr; try discriminate;
    injection Hs as <-.
  - exists text'. split; [apply lookup_put_same|].
    right. apply (rewrite_written d name text text' Hrb Hl Hr).
  - exists text. auto.
Qed.

Lemma step_reads_back (name : string) (d d' : directory) :
  codec_reads_back d -> step name d = ok d' -> codec_reads_back d'.
Proof.
  intros Hrb Hs. pose proof Hs as Hs0. unfold step_files in Hs.
  destruct (lookup name d) as [[text|]|] eqn:Hl; try discriminate.
  destruct (rewrite text) as [e|[text'|]] eqn:Hr; try discriminate;
    injection Hs as <-; [|exact Hrb].
  intros n t data data' Hn Hd Hin Hst.
  destruct (string_dec n name) as [->|Hne].
  - rewrite lookup_put_same in Hn. injection Hn as <-.
    destruct (rewrite_written d name text text' Hrb Hl Hr) as [_ Hw].
    apply (Hw data data' Hd Hst).
  - rewrite (lookup_put_other _ _ _ _ Hne) in Hn.
    apply (Hrb n t data data' Hn Hd Hin Hst).
Qed.

(** The loop over the same names, started on the directory it left, ends
    the same way and leaves that directory. *)
Lemma loop_again (l : list string) :
  forall d r d',
    codec_reads_back d -> loop l d = (r, d') -> loop l d' = (r, d').
Proof.
  induction l as [|name l IH]; simpl; intros d r d' Hrb H.
  - injection H as <- <-. reflexivity.
  - destruct (step name d) as [e|d1] eqn:Hs.
    + injection H as <- <-. rewrite Hs. reflexivity.
    + pose proof (step_settles _ _ _ Hrb Hs) as Hst.
      pose proof (stable_kept_by_loop _ _ _ _ _ H Hst) as Hst'.
      rewrite (stable_step _ _ Hst').
      apply (IH d1 r d' (step_reads_back _ _ _ Hrb Hs) H).
Qed.

(** C4. When [json.load] reads back the records the script writes to the
    files of the directory, a second run leaves the directory the first run
    left, every file with the same text, and ends the way the first did.
    This holds for every directory: also when a run is cut short by an
    exception. *)
Theorem run_twice_same_files (d : directory) :
  codec_reads_back d ->
  files (snd (script (files (snd (script d))))) = files (snd (script d))
  /\ fst (script (files (snd (script d)))) = fst (script d).
Proof.
  intros Hrb.
  pose proof (run_files d) as H1.
  pose proof (run_files (files (snd (script d)))) as H2.
  destruct (run_careful d) as [Hn _].
  rewrite Hn in H2.
  rewrite (loop_again _ _ _ _ Hrb (eq_sym H1)) in H2.
  injection H2 as -> ->. auto.
Qed.

(** *** Directories of session records *)

Abbreviation events := (file_events json_loads json_dumps).
Abbreviation after := (file_after json_loads json_dumps).

(** The loop body on a session record: without [messages] it rewrites
    nothing; with [messages] it writes the stripped record. *)
Lemma rewrite_of_session (text : string) (r : dict) :
  json_loads text = Some (VDict r) ->
  session_record (VDict r) = true ->
  (dict_mem "messages" r = false /\ rewrite text = ok None)
  \/ (dict_mem "messages" r = true
      /\ exists msgs,
           dict_get "messages" r = Some (VList msgs)
           /\ strip_rendered (VDict r)
              = ok (VDict (dict_set "messages" (VList (map without_rendered msgs)) r))
           /\ rewrite text
              = ok (Some (json_dumps 2
                            (VDict (dict_set "messages"
                                      (VList (map without_rendered msgs)) r))))).
Proof.
  intros Hd Hrec. unfold rewrite_of. rewrite Hd. simpl py_in.
  pose proof Hrec as Hrec0. simpl in Hrec. unfold dict_mem.
  destruct (dict_get "messages" r) as [messages|] eqn:Hget; [right | left; auto].
  destruct messages as [| | | | |msgs|]; try discriminate.
  split; [reflexivity|]. exists msgs. split; [reflexivity|].
  pose proof (strip_rendered_session r msgs Hrec0 Hget) as Hs.
  split; [exact Hs|]. simpl. rewrite Hs. reflexivity.
Qed.

Lemma record_after_messages (r : dict) (data' : value) :
  dict_mem "messages" r = true ->
  strip_rendered (VDict r) = ok data' ->
  record_after (VDict r) = data'.
Proof.
  intros Hm Hs. unfold record_after. simpl py_in. rewrite Hm, Hs. reflexivity.
Qed.

Lemma events_agree (d d' : directory) (name : string) :
  lookup name d' = lookup name d -> events d' name = events d name.
Proof. unfold file_events. intros ->. reflexivity. Qed.

(** The loop over distinct names of files the body does not raise on. *)
Lemma for_each_sessions (l : list string) :
  NoDup l ->
  forall w,
    (forall n, In n l ->
       exists text r, lookup n (files w) = Some (File text) /\ rewrite text = ok r) ->
    exists d',
      for_each l process w = (ok tt, World d' (log w ++ flat_map (events (files w)) l))
      /\ (forall n, ~ In n l -> lookup n d' = lookup n (files w))
      /\ (forall n, In n l -> lookup n d' = after (lookup n (files w))).
Proof.
  induction 1 as [|name l Hnotin Hnd IH]; intros w Hall.
  - exists (files w). simpl. rewrite app_nil_r. destruct w. simpl.
    split; [reflexivity|]. split; [reflexivity | intros n []].
  - destruct (Hall name (or_introl eq_refl)) as (text & r & Hl & Hr).
    rewrite for_each_cons, process_session_file_eq, Hl, Hr.
    assert (Hev : events (files w) name
                  = match r with
                    | Some text' => [Read name; Wrote name text']
                    | None => [Read name]
                    end).
    { unfold file_events. rewrite Hl, Hr. destruct r; reflexivity. }
    assert (Haf : after (lookup name (files w))
                  = match r with
                    | Some text' => Some (File text')
                    | None => Some (File text)
                    end).
    { unfold file_after. rewrite Hl, Hr. destruct r; reflexivity. }
    simpl flat_map. rewrite Hev.
    destruct r as [text'|]; simpl.
    + set (w1 := World (put_file name text' (files w))
                   (log w ++ [Read name; Wrote name text'])).
      assert (Hother : forall n, n <> name -> lookup n (files w1) = lookup n (files w)).
      { intros n Hn. simpl. apply lookup_put_other. exact Hn. }
      assert (Hl' : forall n, In n l -> n <> name).
      { intros n Hn ->. contradiction. }
      destruct (IH w1) as (d' & Hrun & Hout & Hin).
      { intros n Hn. rewrite (Hother n (Hl' n Hn)). apply Hall. right. exact Hn. }
      exists d'. split; [|split].
      * rewrite Hrun.
        rewrite (flat_map_agree (events (files w1)) (events (files w)) l).
        -- unfold w1. simpl. rewrite <- app_assoc. reflexivity.
        -- intros n Hn. apply events_agree. apply Hother, Hl', Hn.
      * intros n Hn. rewrite Hout.
        -- apply Hother. intros ->. apply Hn. left. reflexivity.
        -- intros Hn'. apply Hn. right. exact Hn'.
      * intros n [<-|Hn].
        -- rewrite (Hout name Hnotin), Haf. simpl. apply lookup_put_same.
        -- rewrite (Hin n Hn), (Hother n (Hl' n Hn)). reflexivity.
    + set (w1 := World (files w) (log w ++ [Read name])).
      destruct (IH w1) as (d' & Hrun & Hout & Hin).
      { intros n Hn. apply Hall. right. exact Hn. }
      exists d'. split; [|split].
      * rewrite Hrun. simpl. rewrite <- app_assoc. reflexivity.
      * intros n Hn. apply Hout. intros Hn'. apply Hn. right. exact Hn'.
      * intros n [<-|Hn].
        -- rewrite (Hout name Hnotin), Haf. simpl. exact Hl.
        -- apply (Hin n Hn).
Qed.

Lemma sessions_directory_inv (d : directory) :
  sessions_directory json_loads d = true ->
  NoDup (names d)
  /\ forall name e,
       lookup name d = Some e ->
       fnmatch "*.json" name = true ->
       exists text r,
         e = File text /\ json_loads text = Some (VDict r)
         /\ session_record (VDict r) = true.
Proof.
  unfold sessions_directory. intros H. apply andb_prop in H.
  destruct H as [Hnd Hall]. split; [apply nodupb_NoDup; exact Hnd|].
  intros name e Hl Hm. rewrite forallb_forall in Hall.
  specialize (Hall (name, e) (lookup_in _ _ _ Hl)).
  cbv beta iota delta [fst snd] in Hall.
  rewrite Hm in Hall. simpl in Hall. unfold holds_session_record in Hall.
  destruct e as [text|]; [|discriminate].
  destruct (json_loads text) as [data|] eqn:Hd; [|discriminate].
  destruct data as [| | | | | |r]; try discriminate.
  exists text, r. auto.
Qed.

Lemma in_names_lookup (name : string) (d : directory) :
  In name (names d) -> exists e, lookup name d = Some e.
Proof.
  induction d as [|[n e] d IH]; simpl; [intros []|].
  destruct (n =? name) eqn:E; [eauto|].
  intros [->|H]; [|auto]. rewrite String.eqb_refl in E. discriminate.
Qed.

(** A run on a directory of session records: it ends normally; the log is
    the log of each selected file in turn, then the completion line; a
    selected file ends as the loop body leaves it, and nothing else
    changes. *)
Lemma run_sessions (d : directory) :
  sessions_directory json_loads d = true ->
  exists d',
    script d
    = (ok tt,
       World d'
         (flat_map (events d) (filter (fnmatch "*.json") (names d))
          ++ [Printed cleared]))
    /\ (forall n, fnmatch "*.json" n = false -> lookup n d' = lookup n d)
    /\ (forall n, fnmatch "*.json" n = true -> lookup n d' = after (lookup n d)).
Proof.
  intros Hdir. destruct (sessions_directory_inv d Hdir) as [Hnd Hall].
  destruct (for_each_sessions (filter (fnmatch "*.json") (names d))
              (NoDup_filter _ Hnd) (World d [])) as (d' & Hrun & Hout & Hin).
  { intros n Hn. apply filter_In in Hn. destruct Hn as [Hn Hm].
    destruct (in_names_lookup _ _ Hn) as [e Hl].
    destruct (Hall n e Hl Hm) as (text & r & -> & Hd & Hrec).
    exists text. simpl.
    destruct (rewrite_of_session text r Hd Hrec) as [[_ Hr]|(_ & msgs & _ & _ & Hr)];
      eauto. }
  exists d'. rewrite run_eq, Hrun. split; [reflexivity|]. split.
  - intros n Hn. apply Hout. intros Hin'. apply filter_In in Hin'.
    destruct Hin' as [_ Hm]. congruence.
  - intros n Hm. destruct (lookup n d) as [e|] eqn:Hl.
    + rewrite <- Hl. apply Hin. apply filter_In. split; [|exact Hm].
      apply (lookup_in_names _ _ _ Hl).
    + unfold file_after. rewrite <- Hl. apply Hout. intros Hin'.
      apply filter_In in Hin'.
      destruct Hin' as [Hn _]. destruct (in_names_lookup _ _ Hn) as [e He].
      congruence.
Qed.

Lemma wrote_in_events (d : directory) (n name text' : string) :
  In (Wrote name text') (events d n) ->
  n = name
  /\ exists text, lookup name d = Some (File text) /\ rewrite text = ok (Some text').
Proof.
  unfold file_events.
  destruct (lookup n d) as [[text|]|] eqn:Hl; try (intros []).
  destruct (rewrite text) as [e|[t|]] eqn:Hr; simpl;
    intros H; repeat (destruct H as [H|H]; try discriminate); try contradiction.
  injection H as -> ->. split; [reflexivity|]. exists text. auto.
Qed.

(** The fate of one session file in a run on a directory of session
    records. *)
Lemma session_file_fate (d : directory) (name text : string) (r : dict) :
  sessions_directory json_loads d = true ->
  fnmatch "*.json" name = true ->
  lookup name d = Some (File text) ->
  json_loads text = Some (VDict r) ->
  (dict_mem "messages" r = false
   /\ (forall text', ~ In (Wrote name text') (log (snd (script d))))
   /\ lookup name (files (snd (script d))) = Some (File text))
  \/ (dict_mem "messages" r = true
      /\ exists data',
           strip_rendered (VDict r) = ok data'
           /\ In (Wrote name (json_dumps 2 data')) (log (snd (script d)))
           /\ lookup name (files (snd (script d))) = Some (File (json_dumps 2 data'))).
Proof.
  intros Hdir Hm Hl Hd.
  destruct (sessions_directory_inv d Hdir) as [_ Hall].
  destruct (Hall name _ Hl Hm) as (text0 & r0 & Ht & Hd0 & Hrec).
  injection Ht as <-. rewrite Hd in Hd0. injection Hd0 as <-.
  destruct (run_sessions d Hdir) as (d' & Hrun & _ & Hin).
  rewrite Hrun. simpl. rewrite (Hin name Hm), Hl. unfold file_after.
  destruct (rewrite_of_session text r Hd Hrec)
    as [[Hno Hr]|(Hyes & msgs & _ & Hs & Hr)]; rewrite Hr.
  - left. split; [exact Hno|]. split; [|reflexivity].
    intros text' H. apply in_app_or in H. destruct H as [H|[H|[]]]; [|discriminate].
    apply in_flat_map in H. destruct H as (n & _ & H).
    apply wrote_in_events in H. destruct H as (_ & t & Hl' & Hr').
    rewrite Hl in Hl'. injection Hl' as <-. rewrite Hr in Hr'. discriminate.
  - right. split; [exact Hyes|]. eexists. split; [exact Hs|]. split; [|reflexivity].
    apply in_or_app. left. apply in_flat_map. exists name. split.
    + apply filter_In. split; [apply (lookup_in_names _ _ _ Hl) | exact Hm].
    + unfold file_events. rewrite Hl, Hr. right. left. reflexivity.
Qed.

Lemma run_sessions_ends (d : directory) :
  sessions_directory json_loads d = true -> fst (script d) = ok tt.
Proof.
  intros Hdir. destruct (run_sessions d Hdir) as (d' & Hrun & _).
  rewrite Hrun. reflexivity.
Qed.

(** C2, as the code has it. In a directory of session records the run ends
    normally, and for a file the pattern selects: when its record has
    [messages], the run writes the record, as the loop body leaves it, to
    that same name with an indent of two, and the file holds that text
    afterwards; when its record has no [messages], the run writes nothing
    to it and the file keeps its text. *)
Theorem record_with_messages_persisted (d : directory) (name text : string) (r : dict) :
  sessions_directory json_loads d = true ->
  fnmatch "*.json" name = true ->
  lookup name d = Some (File text) ->
  json_loads text = Some (VDict r) ->
  fst (script d) = ok tt
  /\ (dict_mem "messages" r = true -> persisted json_loads json_dumps d name (VDict r))
  /\ (dict_mem "messages" r = false ->
      (forall text', ~ In (Wrote name text') (log (snd (script d))))
      /\ lookup name (files (snd (script d))) = Some (File text)).
Proof.
  intros Hdir Hm Hl Hd. split; [apply run_sessions_ends; exact Hdir|].
  destruct (session_file_fate d name text r Hdir Hm Hl Hd)
    as [(Hno & Hw & Hf)|(Hyes & data' & Hs & Hw & Hf)]; split; intros H;
    try congruence; auto.
  unfold persisted. rewrite (record_after_messages r data' Hyes Hs). auto.
Qed.

(** C3. A session record without [messages] is not touched: the loop body
    leaves the object as it is, and after a run on a directory of session
    records the file holds the text it held, which is still that record,
    field by field. *)
Theorem record_without_messages_unchanged
  (d : directory) (name text : string) (r : dict) :
  sessions_directory json_loads d = true ->
  fnmatch "*.json" name = true ->
  lookup name d = Some (File text) ->
  json_loads text = Some (VDict r) ->
  dict_mem "messages" r = false ->
  record_after (VDict r) = VDict r
  /\ fst (script d) = ok tt
  /\ exists text',
       lookup name (files (snd (script d))) = Some (File text')
       /\ text' = text
       /\ json_loads text' = Some (VDict r).
Proof.
  intros Hdir Hm Hl Hd Hno. split; [|split].
  - unfold record_after. simpl py_in. rewrite Hno. reflexivity.
  - apply run_sessions_ends. exact Hdir.
  - destruct (session_file_fate d name text r Hdir Hm Hl Hd)
      as [(_ & _ & Hf)|(Hyes & _)]; [|congruence].
    exists text. auto.
Qed.

Lemma map_without_rendered_none (msgs : list value) :
  forallb message_entry msgs = true ->
  (forall m, In (VDict m) msgs -> dict_mem "rendered" m = false) ->
  map without_rendered msgs = msgs.
Proof.
  induction msgs as [|msg msgs IH]; simpl; intros He Hno; [reflexivity|].
  apply andb_prop in He. destruct He as [Hm He].
  rewrite (IH He); [|intros m Hin; apply Hno; auto].
  destruct msg as [| | | | | |m]; try discriminate. simpl.
  rewrite (dict_del_absent _ _ (Hno m (or_introl eq_refl))). reflexivity.
Qed.

(** C9. In a directory of session records, a selected file is written
    exactly when its record has [messages]; and a record with [messages]
    none of whose entries has [rendered] is written all the same, as the
    record it was, with an indent of two. *)
Theorem rewritten_iff_messages (d : directory) (name text : string) (r : dict) :
  sessions_directory json_loads d = true ->
  fnmatch "*.json" name = true ->
  lookup name d = Some (File text) ->
  json_loads text = Some (VDict r) ->
  ((exists text', In (Wrote name text') (log (snd (script d))))
   <-> dict_mem "messages" r = true)
  /\ forall msgs,
       dict_get "messages" r = Some (VList msgs) ->
       (forall m, In (VDict m) msgs -> dict_mem "rendered" m = false) ->
       In (Wrote name (json_dumps 2 (VDict r))) (log (snd (script d)))
       /\ lookup name (files (snd (script d))) = Some (File (json_dumps 2 (VDict r))).
Proof.
  intros Hdir Hm Hl Hd.
  destruct (sessions_directory_inv d Hdir) as [_ Hall].
  destruct (Hall name _ Hl Hm) as (text0 & r0 & Ht & Hd0 & Hrec).
  injection Ht as <-. rewrite Hd in Hd0. injection Hd0 as <-.
  destruct (session_file_fate d name text r Hdir Hm Hl Hd)
    as [(Hno & Hw & Hf)|(Hyes & data' & Hs & Hw & Hf)].
  - split.
    + split; [intros [text' H]; destruct (Hw text' H) | congruence].
    + intros msgs Hget. unfold dict_mem in Hno. rewrite Hget in Hno. discriminate.
  - split.
    + split; [auto | intros _; eauto].
    + intros msgs Hget Hnone.
      rewrite (strip_rendered_session r msgs Hrec Hget) in Hs.
      simpl in Hrec. rewrite Hget in Hrec.
      rewrite (map_without_rendered_none msgs Hrec Hnone) in Hs.
      rewrite (dict_set_same _ _ _ Hget) in Hs. injection Hs as <-. auto.
Qed.

End ScriptFacts.

(** ** The script on the example directories *)

Lemma empty_directory_only_prints_witness :
  run RefJson.loads RefJson.dumps Examples.no_sessions
  = (ok tt, World Examples.no_sessions [Printed cleared]).
Proof.
  apply (empty_directory_only_prints RefJson.loads RefJson.dumps Examples.no_sessions).
  reflexivity.
Defined.

Lemma run_twice_same_files_witness :
  files (snd (run RefJson.loads RefJson.dumps
                (files (snd (run RefJson.loads RefJson.dumps Examples.sessions)))))
  = files (snd (run RefJson.loads RefJson.dumps Examples.sessions))
  /\ fst (run RefJson.loads RefJson.dumps
            (files (snd (run RefJson.loads RefJson.dumps Examples.sessions))))
     = fst (run RefJson.loads RefJson.dumps Examples.sessions).
Proof.
  apply (run_twice_same_files RefJson.loads RefJson.dumps Examples.sessions).
  intros name text data data' Hl Hd Hin Hs.
  unfold Examples.sessions in Hl. simpl in Hl.
  repeat match type of Hl with
         | (if ?b then _ else _) = _ => destruct b
         end;
    try discriminate; injection Hl as <-;
    vm_compute in Hd; try discriminate; injection Hd as <-;
    vm_compute in Hin; try discriminate;
    vm_compute in Hs; injection Hs as <-;
    vm_compute; reflexivity.
Defined.

(** C2, as the specification states it, fails on the second scenario of the
    specification: [b.json] holds a session record without [messages], the
    pattern selects it, and the run neither writes it nor leaves the file
    with the indented text. *)
Lemma record_without_messages_not_persisted :
  sessions_directory RefJson.loads Examples.other_dir = true
  /\ fnmatch "*.json" "b.json" = true
  /\ lookup "b.json" Examples.other_dir = Some (File Examples.other_text)
  /\ RefJson.loads Examples.other_text = Some (VDict Examples.other_record)
  /\ ~ persisted RefJson.loads RefJson.dumps Examples.other_dir "b.json"
         (VDict Examples.other_record).
Proof.
  repeat split; try reflexivity.
  intros [Hin _]. vm_compute in Hin.
  destruct Hin as [H|[H|[]]]; discriminate.
Qed.

Lemma record_with_messages_persisted_witness :
  fst (run RefJson.loads RefJson.dumps Examples.sessions) = ok tt
  /\ (dict_mem "messages" Examples.hi_record = true ->
      persisted RefJson.loads RefJson.dumps Examples.sessions "a.json"
        (VDict Examples.hi_record))
  /\ (dict_mem "messages" Examples.hi_record = false ->
      (forall text',
          ~ In (Wrote "a.json" text')
              (log (snd (run RefJson.loads RefJson.dumps Examples.sessions))))
      /\ lookup "a.json" (files (snd (run RefJson.loads RefJson.dumps Examples.sessions)))
         = Some (File Examples.hi_text)).
Proof.
  apply (record_with_messages_persisted RefJson.loads RefJson.dumps
           Examples.sessions "a.json" Examples.hi_text Examples.hi_record);
    reflexivity.
Defined.

Lemma record_without_messages_unchanged_witness :
  record_after (VDict Examples.other_record) = VDict Examples.other_record
  /\ fst (run RefJson.loads RefJson.dumps Examples.sessions) = ok tt
  /\ exists text',
       lookup "b.json" (files (snd (run RefJson.loads RefJson.dumps Examples.sessions)))
       = Some (File text')
       /\ text' = Examples.other_text
       /\ RefJson.loads text' = Some (VDict Examples.other_record).
Proof.
  apply (record_without_messages_unchanged RefJson.loads RefJson.dumps
           Examples.sessions "b.json" Examples.other_text Examples.other_record);
    reflexivity.
Defined.

Lemma rewritten_iff_messages_witness :
  ((exists text',
       In (Wrote "c.json" text')
         (log (snd (run RefJson.loads RefJson.dumps Examples.sessions))))
   <-> dict_mem "messages" Examples.plain_record = true)
  /\ forall msgs,
       dict_get "messages" Examples.plain_record = Some (VList msgs) ->
       (forall m, In (VDict m) msgs -> dict_mem "rendered" m = false) ->
       In (Wrote "c.json" (RefJson.dumps 2 (VDict Examples.plain_record)))
         (log (snd (run RefJson.loads RefJson.dumps Examples.sessions)))
       /\ lookup "c.json" (files (snd (run RefJson.loads RefJson.dumps Examples.sessions)))
          = Some (File (RefJson.dumps 2 (VDict Examples.plain_record))).
Proof.
  apply (rewritten_iff_messages RefJson.loads RefJson.dumps
           Examples.sessions "c.json" Examples.plain_text Examples.plain_record);
    reflexivity.
Defined.

(** The run on the example directory, in full: [a.json] and [c.json] are
    read and written, [b.json] is read only, the names the pattern does not
    select are not opened. *)
Example run_sessions_example :
  run RefJson.loads RefJson.dumps Examples.sessions
  = (ok tt,
     World
       [("a.json",
         File (RefJson.dumps 2 (VDict [("messages", VList [VDict [("text", VStr "hi")]])])));
        ("notes.txt", File "not json");
        ("b.json", File Examples.other_text);
        ("c.json", File (RefJson.dumps 2 (VDict Examples.plain_record)));
        ("old", Dir)]
       [Read "a.json";
        Wrote "a.json"
          (RefJson.dumps 2 (VDict [("messages", VList [VDict [("text", VStr "hi")]])]));
        Read "b.json";
        Read "c.json";
        Wrote "c.json" (RefJson.dumps 2 (VDict Examples.plain_record));
        Printed cleared]).
Proof. vm_compute. reflexivity. Qed.

(** [c.json] had no [rendered] field to lose, and its text changed: the run
    wrote the record over several lines. *)
Example plain_text_reformatted :
  RefJson.dumps 2 (VDict Examples.plain_record) <> Examples.plain_text
  /\ RefJson.loads (RefJson.dumps 2 (VDict Examples.plain_record))
     = RefJson.loads Examples.plain_text.
Proof. split; [vm_compute; discriminate | vm_compute; reflexivity]. Qed.

(** An exception ends the run where it is raised: the files before it are
    rewritten, the ones after it are not read, and nothing is printed. *)
Example run_broken_example :
  run RefJson.loads RefJson.dumps Examples.broken
  = (raise IsADirectoryError,
     World
       [("a.json",
         File (RefJson.dumps 2 (VDict [("messages", VList [VDict [("text", VStr "hi")]])])));
        ("x.json", Dir);
        ("c.json", File Examples.plain_text)]
       [Read "a.json";
        Wrote "a.json"
          (RefJson.dumps 2 (VDict [("messages", VList [VDict [("text", VStr "hi")]])]))]).
Proof. vm_compute. reflexivity. Qed.

(** What the body of the inner loop does to objects that are no mapping. *)
Example strip_msg_objects :
  strip_msg (VInt 1) = raise TypeError
  /\ strip_msg VNone = raise TypeError
  /\ strip_msg (VStr "plain") = ok (VStr "plain")
  /\ strip_msg (VStr "prerendered") = raise TypeError
  /\ strip_msg (VList [VStr "a"]) = ok (VList [VStr "a"])
  /\ strip_msg (VList [VStr "rendered"]) = raise TypeError.
Proof. repeat split. Qed.

(** * Further properties of the script *)

(** ** The loops on any object *)

(** X1. The body of the inner loop on any object: it returns exactly on the
    accepted objects (a mapping, a string without [rendered] in it, a list
    without the element [rendered]), and then a mapping comes back without
    its [rendered] key and anything else comes back as it was; on every other
    object it raises [TypeError], and it never raises anything else. *)
Theorem strip_msg_outcome (msg : value) :
  strip_msg msg
  = if entry_accepted msg then ok (without_rendered msg) else raise TypeError.
Proof.
  destruct msg as [| | | |s|l|m]; try reflexivity.
  - unfold strip_msg. simpl. destruct (str_contains "rendered" s); reflexivity.
  - unfold strip_msg. simpl. destruct (existsb (eq_str "rendered") l); reflexivity.
  - apply strip_msg_entry.
Qed.

Lemma char_not_rendered (c : ascii) :
  strip_msg (VStr (String c EmptyString)) = ok (VStr (String c EmptyString)).
Proof.
  unfold strip_msg. cbn -[ascii_dec]. destruct (ascii_dec "r" c); reflexivity.
Qed.

Lemma mapM_strip_chars (l : list ascii) :
  mapM strip_msg (map (fun c => VStr (String c EmptyString)) l)
  = ok (map (fun c => VStr (String c EmptyString)) l).
Proof.
  induction l as [|c l IH]; simpl; [reflexivity|].
  rewrite char_not_rendered. simpl. rewrite IH. reflexivity.
Qed.

Lemma mapM_strip_keys (ks : list string) :
  mapM strip_msg (map VStr ks)
  = if existsb (str_contains "rendered") ks then raise TypeError
    else ok (map VStr ks).
Proof.
  induction ks as [|k ks IH]; simpl; [reflexivity|].
  unfold strip_msg at 1. simpl.
  destruct (str_contains "rendered" k); simpl; [reflexivity|].
  rewrite IH. destruct (existsb (str_contains "rendered") ks); reflexivity.
Qed.

(** X2. A record whose [messages] is not a list. When it is a string the
    guarded block returns the record as it was, whatever the string; when it
    is a mapping the block iterates over its keys, so it raises [TypeError]
    when some key contains [rendered] and returns the record as it was
    otherwise; when it is a number, a boolean or [None] the block raises
    [TypeError]. *)
Theorem messages_not_a_list (d : dict) (messages : value) :
  dict_get "messages" d = Some messages ->
  match messages with
  | VList _ => True
  | VStr _ => strip_rendered (VDict d) = ok (VDict d)
  | VDict m =>
      strip_rendered (VDict d)
      = if existsb (str_contains "rendered") (keys m) then raise TypeError
        else ok (VDict d)
  | _ => strip_rendered (VDict d) = raise TypeError
  end.
Proof.
  intros Hget. unfold strip_rendered, strip_messages. simpl. rewrite Hget. simpl.
  destruct messages as [| | | |s|l|m]; try reflexivity; try exact I.
  - cbn [py_iter bind ok]. rewrite mapM_strip_chars. cbn [bind ok].
    rewrite (dict_set_same _ _ _ Hget). reflexivity.
  - cbn [py_iter bind ok]. rewrite mapM_strip_keys.
    destruct (existsb (str_contains "rendered") (keys m)); [reflexivity|].
    cbn [bind ok]. rewrite (dict_set_same _ _ _ Hget). reflexivity.
Qed.

Lemma messages_not_a_list_witness :
  strip_rendered (VDict [("id", VInt 1); ("messages", VDict [("unrendered", VNone)])])
  = if existsb (str_contains "rendered") (keys [("unrendered", VNone)])
    then raise TypeError
    else ok (VDict [("id", VInt 1); ("messages", VDict [("unrendered", VNone)])]).
Proof.
  apply (messages_not_a_list
           [("id", VInt 1); ("messages", VDict [("unrendered", VNone)])]
           (VDict [("unrendered", VNone)])).
  reflexivity.
Defined.

(** X3. The guarded block is idempotent on every object: whenever it returns
    a record, running it on that record returns the same record. *)
Theorem strip_rendered_twice (data data' : value) :
  strip_rendered data = ok data' -> strip_rendered data' = ok data'.
Proof. intros H. apply (strip_rendered_idem _ _ H). Qed.

Lemma strip_rendered_twice_witness :
  strip_rendered
    (VDict [("messages", VList [VDict [("text", VStr "hi")]; VStr "note"])])
  = ok (VDict [("messages", VList [VDict [("text", VStr "hi")]; VStr "note"])]).
Proof.
  apply (strip_rendered_twice
           (VDict [("messages",
                    VList [VDict [("text", VStr "hi"); ("rendered", VInt 0)];
                           VStr "note"])])).
  reflexivity.
Defined.

(** ** Logs *)

Lemma reads_app (l1 l2 : list event) : reads (l1 ++ l2) = reads l1 ++ reads l2.
Proof.
  induction l1 as [|e l1 IH]; simpl; [reflexivity|].
  destruct e; simpl; rewrite IH; reflexivity.
Qed.

Lemma mapM_in {A B : Type} (f : A -> result B) (l : list A) (l' : list B) (b : B) :
  mapM f l = ok l' -> In b l' -> exists a, In a l /\ f a = ok b.
Proof.
  revert l'. induction l as [|a l IH]; simpl; intros l' H Hb.
  - injection H as <-. destruct Hb.
  - destruct (f a) as [e|b0] eqn:Ha; simpl in H; [discriminate|].
    destruct (mapM f l) as [e|bs]; simpl in H; [discriminate|].
    injection H as <-. destruct Hb as [<-|Hb]; [eauto|].
    destruct (IH bs eq_refl Hb) as (a' & Hin & Ha'). eauto.
Qed.

(** The record the guarded block returns has [messages], and no mapping in
    its list of messages has a [rendered] key. *)
Lemma strip_rendered_clean (data data' : value) :
  strip_rendered data = ok data' ->
  py_in "messages" data' = ok true
  /\ forall msgs,
       py_getitem "messages" data' = ok (VList msgs) ->
       forall m, In (VDict m) msgs -> dict_mem "rendered" m = false.
Proof.
  intros H. split; [apply (strip_rendered_idem _ _ H)|].
  destruct data as [| | | | | |d]; try discriminate.
  unfold strip_rendered in H. simpl in H.
  destruct (dict_get "messages" d) as [messages|]; simpl in H; [|discriminate].
  destruct (strip_messages messages) as [e|messages'] eqn:Hs; simpl in H; [discriminate|].
  injection H as <-. simpl. rewrite dict_get_set_same.
  intros msgs Hm m Hin. injection Hm as ->.
  unfold strip_messages in Hs.
  destruct messages as [| | | |s|l|fields]; try discriminate; simpl in Hs;
    destruct (mapM strip_msg _) as [e|items'] eqn:Hmap; simpl in Hs; try discriminate.
  injection Hs as <-.
  destruct (mapM_in _ _ _ _ Hmap Hin) as (a & _ & Ha).
  apply strip_msg_result in Ha.
  destruct a; try discriminate. injection Ha as ->. apply dict_mem_del.
Qed.




Section MoreScriptFacts.

Variable json_loads : string -> option value.
Variable json_dumps : nat -> value -> string.

Abbreviation process := (process_session_file json_loads json_dumps).
Abbreviation rewrite := (rewrite_of json_loads json_dumps).
Abbreviation script := (run json_loads json_dumps).
Abbreviation fate := (fate json_loads json_dumps).


(** What the body writes, when it writes. *)
Lemma rewrite_of_some (text text' : string) :
  rewrite text = ok (Some text') ->
  exists data data',
    json_loads text = Some data
    /\ py_in "messages" data = ok true
    /\ strip_rendered data = ok data'
    /\ text' = json_dumps 2 data'.
Proof.
  unfold rewrite_of.
  destruct (json_loads text) as [data|]; [|discriminate].
  destruct (py_in "messages" data) as [e|[|]] eqn:Hin; simpl; try discriminate.
  destruct (strip_rendered data) as [e|data'] eqn:Hs; simpl; [discriminate|].
  intros H. injection H as <-. exists data, data'.
  split; [reflexivity|]. split; [exact Hin|]. split; [exact Hs | reflexivity].
Qed.



(** X5. The completion line is printed exactly when the run ends normally,
    and then once, as the last thing the run does; a run that an exception
    ends prints nothing. *)
Theorem completion_line_iff_normal_end (d : directory) :
  match fst (script d) with
  | inr _ =>
      exists l,
        log (snd (script d)) = l ++ [Printed cleared]
        /\ forall line, ~ In (Printed line) l
  | inl _ => forall line, ~ In (Printed line) (log (snd (script d)))
  end.
Proof.
  set (P := fun w : world => forall line, ~ In (Printed line) (log w)).
  assert (Hloop : P (snd (for_each (filter (fnmatch "*.json") (names d)) process
                            (World d [])))).
  { apply for_each_invariant.
    - intros a w Hw. rewrite process_session_file_eq.
      destruct (lookup a (files w)) as [[text|]|]; try exact Hw.
      destruct (rewrite text) as [e|[text'|]]; cbn [snd]; intros line H;
        cbn [log] in H; apply in_app_or in H;
        destruct H as [H|H]; try (apply (Hw line H));
        repeat (destruct H as [H|H]; try discriminate); destruct H.
    - intros line []. }
  rewrite run_eq. destruct (for_each _ _ _) as [[e|[]] w']; cbn [fst snd] in *.
  - exact Hloop.
  - exists (log w'). split; [reflexivity | exact Hloop].
Qed.

Lemma for_each_reads (l : list string) :
  forall w,
    exists pre rest,
      l = pre ++ rest
      /\ reads (log (snd (for_each l process w))) = reads (log w) ++ pre
      /\ (fst (for_each l process w) = ok tt -> rest = []).
Proof.
  induction l as [|a l IH]; intros w.
  - exists [], []. simpl. rewrite app_nil_r. auto.
  - rewrite for_each_cons, process_session_file_eq.
    destruct (lookup a (files w)) as [[text|]|];
      try (exists [], (a :: l); cbn [fst snd]; rewrite app_nil_r;
           split; [reflexivity|]; split; [reflexivity | discriminate]).
    destruct (rewrite text) as [e|[text'|]].
    + exists [a], l. cbn [fst snd log]. rewrite reads_app.
      split; [reflexivity|]. split; [reflexivity | discriminate].
    + destruct (IH (World (put_file a text' (files w))
                      (log w ++ [Read a; Wrote a text'])))
        as (pre & rest & -> & Hr & Hok).
      exists (a :: pre), rest. cbv beta iota delta [ok]. rewrite Hr. cbn [log].
      rewrite reads_app. cbn [reads]. rewrite <- app_assoc. auto.
    + destruct (IH (World (files w) (log w ++ [Read a])))
        as (pre & rest & -> & Hr & Hok).
      exists (a :: pre), rest. cbv beta iota delta [ok]. rewrite Hr. cbn [log].
      rewrite reads_app. cbn [reads]. rewrite <- app_assoc. auto.
Qed.

(** X6. The files are opened in directory order, each selected name once
    per occurrence: the names the log says were read are an initial part of
    the selected names of the directory, and all of them when the run ends
    normally. An exception leaves every later file unopened. *)
Theorem reads_in_directory_order (d : directory) :
  exists rest,
    filter (fnmatch "*.json") (names d) = reads (log (snd (script d))) ++ rest
    /\ (fst (script d) = ok tt -> rest = []).
Proof.
  destruct (for_each_reads (filter (fnmatch "*.json") (names d)) (World d []))
    as (pre & rest & Hl & Hr & Hok).
  exists rest. rewrite run_eq.
  destruct (for_each _ _ _) as [[e|[]] w']; cbn [fst snd log] in *.
  - rewrite Hr. split; [exact Hl | discriminate].
  - rewrite reads_app, Hr. cbn [reads]. rewrite app_nil_r.
    split; [exact Hl | exact Hok].
Qed.

Lemma for_each_fates (d0 : directory) (l : list string) :
  NoDup l ->
  forall w,
    (forall n, In n l -> lookup n (files w) = lookup n d0) ->
    (forall n, fate d0 n (files w)) ->
    forall n, fate d0 n (files (snd (for_each l process w))).
Proof.
  induction 1 as [|a l Hnotin Hnd IH]; intros w Hfresh Hall; [exact Hall|].
  rewrite for_each_cons, process_session_file_eq.
  pose proof (Hfresh a (or_introl eq_refl)) as Ha.
  destruct (lookup a (files w)) as [[text|]|] eqn:Hl; try exact Hall.
  destruct (rewrite text) as [e|[text'|]] eqn:Hr; cbn [snd]; try exact Hall.
  - apply IH; cbn [files].
    + intros n Hn. rewrite lookup_put_other; [apply Hfresh; right; exact Hn|].
      intros ->. contradiction.
    + intros n. destruct (string_dec n a) as [->|Hne].
      * right. exists text, text'. rewrite lookup_put_same. auto.
      * unfold fate. rewrite (lookup_put_other _ _ _ _ Hne). apply Hall.
  - apply IH; cbn [files]; [|exact Hall].
    intros n Hn. apply Hfresh. right. exact Hn.
Qed.

(** X7. In a directory whose names are distinct, whatever the files hold and
    however the run ends, every entry ends either as it was or as the
    indent-two text of its own record after the whole inner loop: no file is
    left with a record stripped in part, and no file is written from the
    record of another. *)
Theorem file_original_or_fully_stripped (d : directory) (name : string) :
  nodupb (names d) = true ->
  lookup name (files (snd (script d))) = lookup name d
  \/ exists text data data',
       lookup name d = Some (File text)
       /\ json_loads text = Some data
       /\ py_in "messages" data = ok true
       /\ strip_rendered data = ok data'
       /\ lookup name (files (snd (script d))) = Some (File (json_dumps 2 data')).
Proof.
  intros Hnd.
  assert (Hloop : fate d name
                    (files (snd (for_each (filter (fnmatch "*.json") (names d))
                                   process (World d []))))).
  { apply for_each_fates.
    - apply NoDup_filter, nodupb_NoDup, Hnd.
    - reflexivity.
    - intros n. left. reflexivity. }
  assert (Hrun : files (snd (script d))
                 = files (snd (for_each (filter (fnmatch "*.json") (names d))
                                 process (World d [])))).
  { rewrite run_eq. destruct (for_each _ _ _) as [[e|[]] w']; reflexivity. }
  rewrite Hrun. destruct Hloop as [H|(text & text' & Hl & Hr & Hf)]; [left; exact H|].
  right. destruct (rewrite_of_some _ _ Hr) as (data & data' & Hd & Hin & Hs & ->).
  exists text, data, data'. auto.
Qed.

(** X8. Whatever the directory holds and however the run ends, every text
    the run writes is the indent-two text of a record that has [messages]
    and, when [messages] is a list, has no mapping with a [rendered] key in
    it. *)
Theorem written_records_have_no_rendered (d : directory) (name text : string) :
  In (Wrote name text) (log (snd (script d))) ->
  exists data',
    text = json_dumps 2 data'
    /\ py_in "messages" data' = ok true
    /\ forall msgs,
         py_getitem "messages" data' = ok (VList msgs) ->
         forall m, In (VDict m) msgs -> dict_mem "rendered" m = false.
Proof.
  set (Q := fun t : string =>
              exists data',
                t = json_dumps 2 data'
                /\ py_in "messages" data' = ok true
                /\ forall msgs,
                     py_getitem "messages" data' = ok (VList msgs) ->
                     forall m, In (VDict m) msgs -> dict_mem "rendered" m = false).
  set (P := fun w : world => forall n t, In (Wrote n t) (log w) -> Q t).
  assert (Hloop : P (snd (for_each (filter (fnmatch "*.json") (names d)) process
                            (World d [])))).
  { apply for_each_invariant.
    - intros a w Hw. rewrite process_session_file_eq.
      destruct (lookup a (files w)) as [[t0|]|]; try exact Hw.
      destruct (rewrite t0) as [e|[text'|]] eqn:Hr; cbn [snd]; intros n t H;
        cbn [log] in H; apply in_app_or in H;
        destruct H as [H|H]; try (apply (Hw n t H));
        repeat (destruct H as [H|H]; try discriminate); try contradiction.
      injection H as _ <-.
      destruct (rewrite_of_some _ _ Hr) as (data & data' & _ & _ & Hs & ->).
      exists data'. split; [reflexivity|]. apply (strip_rendered_clean _ _ Hs).
    - intros n t []. }
  intros H. rewrite run_eq in H.
  destruct (for_each _ _ _) as [[e|[]] w']; cbn [snd log] in *.
  - apply (Hloop name text H).
  - apply in_app_or in H. destruct H as [H|[H|[]]]; [|discriminate].
    apply (Hloop name text H).
Qed.

Lemma no_rewrite_without_messages (text : string) (data : value) :
  json_loads text = Some data ->
  (forall r, data = VDict r -> dict_mem "messages" r = false) ->
  forall text', rewrite text <> ok (Some text').
Proof.
  intros Hd Hno text' Hr.
  destruct (rewrite_of_some _ _ Hr) as (data0 & data' & Hd0 & _ & Hs & _).
  rewrite Hd in Hd0. injection Hd0 as <-.
  destruct data as [| | | | | |r]; try discriminate.
  pose proof (Hno r eq_refl) as Hm. unfold dict_mem in Hm.
  unfold strip_rendered in Hs. simpl in Hs.
  destruct (dict_get "messages" r); discriminate.
Qed.

(** X9. A file whose record is not a mapping with a [messages] key (a
    mapping without the key, or a list, a string, a number, a boolean or
    [None] at the top) is never written, whatever else the directory holds
    and however the run ends: it keeps its text and the log has no write of
    its name. *)
Theorem record_without_messages_never_written
  (d : directory) (name text : string) (data : value) :
  lookup name d = Some (File text) ->
  json_loads text = Some data ->
  (forall r, data = VDict r -> dict_mem "messages" r = false) ->
  lookup name (files (snd (script d))) = Some (File text)
  /\ forall text', ~ In (Wrote name text') (log (snd (script d))).
Proof.
  intros Hl Hd Hno.
  pose proof (no_rewrite_without_messages text data Hd Hno) as Hnever.
  set (P := fun w : world =>
              lookup name (files w) = Some (File text)
              /\ forall text', ~ In (Wrote name text') (log w)).
  assert (Hloop : P (snd (for_each (filter (fnmatch "*.json") (names d)) process
                            (World d [])))).
  { apply for_each_invariant.
    - intros a w (Hf & Hw). rewrite process_session_file_eq.
      destruct (lookup a (files w)) as [[t0|]|] eqn:Ha; try (split; assumption).
      assert (Hread : P (World (files w) (log w ++ [Read a]))).
      { split; [exact Hf|]. cbn [log]. intros t H. apply in_app_or in H.
        destruct H as [H|[H|[]]]; [apply (Hw t H) | discriminate]. }
      destruct (rewrite t0) as [e|[text'|]] eqn:Hr; cbn [snd]; try exact Hread.
      assert (Hne : name <> a).
      { intros ->. rewrite Hf in Ha. injection Ha as <-. apply (Hnever _ Hr). }
      split; cbn [files log].
      + rewrite (lookup_put_other _ _ _ _ Hne). exact Hf.
      + intros t H. apply in_app_or in H. destruct H as [H|[H|[H|[]]]];
          [apply (Hw t H) | discriminate |].
        injection H as -> _. congruence.
    - split; [exact Hl | intros t []]. }
  rewrite run_eq. destruct (for_each _ _ _) as [[e|[]] w']; cbn [snd] in *;
    [exact Hloop|].
  destruct Hloop as (Hf & Hw). split; [exact Hf|]. cbn [log].
  intros t H. apply in_app_or in H. destruct H as [H|[H|[]]];
    [apply (Hw t H) | discriminate].
Qed.








End MoreScriptFacts.

(** ** The further properties on the example directories *)


Lemma file_original_or_fully_stripped_witness :
  lookup "a.json" (files (snd (run RefJson.loads RefJson.dumps Examples.broken)))
  = lookup "a.json" Examples.broken
  \/ exists text data data',
       lookup "a.json" Examples.broken = Some (File text)
       /\ RefJson.loads text = Some data
       /\ py_in "messages" data = ok true
       /\ strip_rendered data = ok data'
       /\ lookup "a.json" (files (snd (run RefJson.loads RefJson.dumps Examples.broken)))
          = Some (File (RefJson.dumps 2 data')).
Proof.
  apply (file_original_or_fully_stripped RefJson.loads RefJson.dumps
           Examples.broken "a.json").
  reflexivity.
Defined.

Lemma written_records_have_no_rendered_witness :
  exists data',
    RefJson.dumps 2 (VDict [("messages", VList [VDict [("text", VStr "hi")]])])
    = RefJson.dumps 2 data'
    /\ py_in "messages" data' = ok true
    /\ forall msgs,
         py_getitem "messages" data' = ok (VList msgs) ->
         forall m, In (VDict m) msgs -> dict_mem "rendered" m = false.
Proof.
  apply (written_records_have_no_rendered RefJson.loads RefJson.dumps
           Examples.sessions "a.json").
  vm_compute. right. left. reflexivity.
Defined.

Lemma record_without_messages_never_written_witness :
  lookup "b.json" (files (snd (run RefJson.loads RefJson.dumps Examples.broken_after)))
  = Some (File Examples.other_text)
  /\ forall text',
       ~ In (Wrote "b.json" text')
           (log (snd (run RefJson.loads RefJson.dumps Examples.broken_after))).
Proof.
  apply (record_without_messages_never_written RefJson.loads RefJson.dumps
           Examples.broken_after "b.json" Examples.other_text
           (VDict Examples.other_record)).
  - reflexivity.
  - reflexivity.
  - intros r H. injection H as <-. reflexivity.
Defined.


